(** * scripts/finance/check_finance_env.py: the finance environment validator

    A shallow embedding of [parse_env_file], [pick], [parse_bool],
    [parse_int], [valid_url], [run_checks] and [main], together with the
    parts of the Python runtime they call ([str.strip], [str.lower], [int],
    [urllib.parse.urlparse]).

    Conventions.
    - A Python [str] is a [string] whose characters are read as the code
      points U+0000..U+00FF.
    - [dict[str, str]] is [gmap string string]; [env.get(k, d)] is
      [dict_get env k d].
    - [str | None] is [option string].
    - A call that may raise returns [res A]: [inl e] is the exception [e]
      propagating, [inr a] is a normal return of [a]. *)

From Stdlib Require Import ZArith NArith String Ascii List Bool Lia DecimalString.
From stdpp Require Import gmap strings.

Import ListNotations.
Local Open Scope string_scope.
Local Open Scope list_scope.

(** ** Exceptions *)

Inductive exn : Type :=
| ValueError (msg : string).

Definition res (A : Type) : Type := (exn + A)%type.

Definition ok_res {A} (a : A) : res A := inr a.
Definition raise {A} (e : exn) : res A := inl e.

Definition res_bind {A B} (m : res A) (k : A -> res B) : res B :=
  match m with
  | inl e => inl e
  | inr a => k a
  end.

(** ** Python string primitives *)

Module PyStr.

Definition code (c : ascii) : N := N_of_ascii c.

Definition between (lo hi : N) (c : ascii) : bool :=
  ((lo <=? code c) && (code c <=? hi))%N.

(** [str.isspace] on one character: TAB..CR, FS..US, SPACE, NEL, NBSP. *)
Definition isspace (c : ascii) : bool :=
  between 9 13 c || between 28 32 c || (code c =? 133)%N || (code c =? 160)%N.

Definition isdigit (c : ascii) : bool := between 48 57 c.
Definition isupper_ascii (c : ascii) : bool := between 65 90 c.
Definition islower_ascii (c : ascii) : bool := between 97 122 c.

(** [c.isascii() and c.isalpha()]. *)
Definition isascii_alpha (c : ascii) : bool := isupper_ascii c || islower_ascii c.

(** [str.lower] on one character: A..Z, and the Latin-1 capitals
    U+00C0..U+00DE except the multiplication sign U+00D7. *)
Definition lower_char (c : ascii) : ascii :=
  if isupper_ascii c || (between 192 222 c && negb (code c =? 215)%N)
  then ascii_of_N (code c + 32)
  else c.

Fixpoint lower (s : string) : string :=
  match s with
  | EmptyString => EmptyString
  | String c s' => String (lower_char c) (lower s')
  end.

Definition nonempty (s : string) : bool :=
  match s with
  | EmptyString => false
  | String _ _ => true
  end.

Fixpoint lstrip_by (p : ascii -> bool) (s : string) : string :=
  match s with
  | EmptyString => EmptyString
  | String c s' => if p c then lstrip_by p s' else s
  end.

Fixpoint rstrip_by (p : ascii -> bool) (s : string) : string :=
  match s with
  | EmptyString => EmptyString
  | String c s' =>
      let r := rstrip_by p s' in
      if negb (nonempty r) && p c then EmptyString else String c r
  end.

(** [s.strip()] *)
Definition strip (s : string) : string := rstrip_by isspace (lstrip_by isspace s).

(** [c in s] for a one-character [c]. *)
Fixpoint contains (c : ascii) (s : string) : bool :=
  match s with
  | EmptyString => false
  | String d s' => Ascii.eqb d c || contains c s'
  end.

Fixpoint forall_chars (p : ascii -> bool) (s : string) : bool :=
  match s with
  | EmptyString => true
  | String c s' => p c && forall_chars p s'
  end.

(** [s.isascii()] *)
Definition isascii (s : string) : bool := forall_chars (fun c => (code c <? 128)%N) s.

(** The code points of [s]. *)
Definition code_points (s : string) : list N := map code (list_ascii_of_string s).

(** [s.replace(c, "")] for every [c] satisfying [p]. *)
Fixpoint remove_chars (p : ascii -> bool) (s : string) : string :=
  match s with
  | EmptyString => EmptyString
  | String c s' => if p c then remove_chars p s' else String c (remove_chars p s')
  end.

(** [s.partition(sep)]: [Some (before, after)] at the first [sep],
    [None] when [sep] does not occur (Python then returns [(s, "", "")]). *)
Fixpoint partition (sep : ascii) (s : string) : option (string * string) :=
  match s with
  | EmptyString => None
  | String c s' =>
      if Ascii.eqb c sep then Some (EmptyString, s')
      else match partition sep s' with
           | Some (a, b) => Some (String c a, b)
           | None => None
           end
  end.

(** [s.rpartition(sep)[2]]: what follows the last [sep], or [s] itself. *)
Fixpoint rpartition_tail (sep : ascii) (s : string) : string :=
  match s with
  | EmptyString => EmptyString
  | String c s' =>
      if contains sep s' then rpartition_tail sep s'
      else if Ascii.eqb c sep then s' else s
  end.

(** [(s[:j], s[j:])] for [j = s.rfind(sep)], [None] when [j < 0]. *)
Fixpoint rfind_split (sep : ascii) (s : string) : option (string * string) :=
  match s with
  | EmptyString => None
  | String c s' =>
      match rfind_split sep s' with
      | Some (a, b) => Some (String c a, b)
      | None => if Ascii.eqb c sep then Some (EmptyString, s) else None
      end
  end.

(** [(s[:j], s[j:])] for the first position [j] whose character satisfies
    [p], or [(s, "")] when there is none. *)
Fixpoint span_until (p : ascii -> bool) (s : string) : string * string :=
  match s with
  | EmptyString => (EmptyString, EmptyString)
  | String c s' =>
      if p c then (EmptyString, s)
      else let '(a, b) := span_until p s' in (String c a, b)
  end.

Definition startswith_char (c : ascii) (s : string) : bool :=
  match s with
  | String d _ => Ascii.eqb d c
  | EmptyString => false
  end.

(** [x in xs] for strings. *)
Definition str_in (x : string) (xs : list string) : bool :=
  existsb (String.eqb x) xs.

(** [str(n)] for an [int]. *)
Definition str_of_int (n : Z) : string := NilZero.string_of_int (Z.to_int n).

(** [str(b).lower()] for a [bool]. *)
Definition lower_str_of_bool (b : bool) : string := if b then "true" else "false".

End PyStr.

Import PyStr.

(** ** [int(s)] for a [str]

    Surrounding whitespace is skipped (the ASCII blanks, and NEL and NBSP,
    which the conversion maps to a blank first), then an optional sign and
    decimal digits follow, single underscores allowed between digits.  More
    than [int_max_str_digits] digits raise [ValueError] as any other
    malformed literal does; [None] stands for that [ValueError]. *)

Definition int_max_str_digits : nat := 4300.

Definition int_space (c : ascii) : bool :=
  between 9 13 c || (code c =? 32)%N || (code c =? 133)%N || (code c =? 160)%N.

Definition digit_value (c : ascii) : Z := Z.of_N (code c) - 48.

Fixpoint scan_digits (s : string) (prev_underscore : bool) (acc : Z) (digits : nat)
  : option (Z * nat) :=
  match s with
  | EmptyString => if prev_underscore then None else Some (acc, digits)
  | String c s' =>
      if Ascii.eqb c "_" then
        if prev_underscore then None else scan_digits s' true acc digits
      else if isdigit c then scan_digits s' false (10 * acc + digit_value c) (S digits)
      else None
  end.

Definition int_magnitude (s : string) : option Z :=
  if startswith_char "_" s then None
  else match scan_digits s false 0 0 with
       | Some (v, digits) =>
           if (digits =? 0)%nat then None
           else if (int_max_str_digits <? digits)%nat then None
           else Some v
       | None => None
       end.

Definition py_int (s : string) : option Z :=
  match rstrip_by int_space (lstrip_by int_space s) with
  | String "+" s' => int_magnitude s'
  | String "-" s' => option_map Z.opp (int_magnitude s')
  | s' => int_magnitude s'
  end.

(** ** The helpers of check_finance_env.py *)

(** [env.get(key, d)] *)
Definition dict_get (env : gmap string string) (key d : string) : string :=
  default d (env !! key).

(** [pick(env, keys, default)] *)
Fixpoint pick (env : gmap string string) (keys : list string) (default_ : option string)
  : option string :=
  match keys with
  | [] => default_
  | key :: keys' =>
      let value := strip (dict_get env key "") in
      if nonempty value then Some value else pick env keys' default_
  end.

(** [parse_bool(raw, default)] *)
Definition parse_bool (raw : option string) (default_ : bool) : bool :=
  match raw with
  | None => default_
  | Some raw =>
      let normalized := lower (strip raw) in
      if str_in normalized ["1"; "true"; "yes"; "on"] then true
      else if str_in normalized ["0"; "false"; "no"; "off"] then false
      else default_
  end.

(** [parse_int(raw, default)]: the [try] turns every exception of [int]
    into [default]. *)
Definition parse_int (raw : option string) (default_ : Z) : Z :=
  match raw with
  | None => default_
  | Some raw =>
      match py_int (strip raw) with
      | Some n => n
      | None => default_
      end
  end.

(** ** [urllib.parse.urlparse] (CPython 3.11)

    Two functions that [urlsplit] reaches belong to the interpreter and are
    the fields of an [Interpreter]:
    - [_check_bracketed_host] validates the text between square brackets
      with the [ipaddress] and [re] modules; it yields [Some e] when it
      raises [e], [None] when it returns.  Releases without that validation
      have [fun _ => None].
    - [NFKC] is [unicodedata.normalize] with the form NFKC, on code points.
      [_checknetloc] calls it on a netloc that is not ASCII and raises when
      the normal form holds one of [/?#@:]; the normal form can hold code
      points above U+00FF.

    The steps are those of CPython 3.11.2 as Debian ships it.  Other
    releases differ in the two opening steps: the strip of leading C0
    controls and spaces, and the letter test on the first character of the
    scheme. *)

Record Interpreter : Type := {
  _check_bracketed_host : string -> option exn;
  NFKC : list N -> list N
}.

Record ParseResult : Type := {
  scheme : string;
  netloc : string;
  path : string;
  params : string;
  query : string;
  fragment : string
}.

Definition uses_params : list string :=
  [""; "ftp"; "hdl"; "prospero"; "http"; "imap"; "https"; "shttp"; "rtsp";
   "rtspu"; "sip"; "sips"; "mms"; "sftp"; "tel"].

(** [c in scheme_chars] *)
Definition scheme_char (c : ascii) : bool :=
  islower_ascii c || isupper_ascii c || isdigit c
  || Ascii.eqb c "+" || Ascii.eqb c "-" || Ascii.eqb c ".".

(** [c in _WHATWG_C0_CONTROL_OR_SPACE] *)
Definition c0_control_or_space (c : ascii) : bool := (code c <=? 32)%N.

(** [c in _UNSAFE_URL_BYTES_TO_REMOVE] *)
Definition unsafe_url_byte (c : ascii) : bool :=
  (code c =? 9)%N || (code c =? 13)%N || (code c =? 10)%N.

Definition netloc_delim (c : ascii) : bool :=
  Ascii.eqb c "/" || Ascii.eqb c "?" || Ascii.eqb c "#".

(** [_splitnetloc(url, 2)] applied to [url] with its first two characters
    already dropped. *)
Definition _splitnetloc (url_from_2 : string) : string * string :=
  span_until netloc_delim url_from_2.

(** [_splitparams(url)], called only when [';' in url]. *)
Definition _splitparams (url : string) : string * string :=
  if contains "/" url then
    match rfind_split "/" url with
    | Some (before, tail) =>
        match partition ";" tail with
        | Some (a, b) => (String.append before a, b)
        | None => (url, "")
        end
    | None => (url, "")
    end
  else
    match partition ";" url with
    | Some (a, b) => (a, b)
    | None => (url, "")
    end.

Section UrlParse.

Variable py : Interpreter.

Definition check (e : option exn) : res unit :=
  match e with
  | Some e => raise e
  | None => ok_res tt
  end.

Definition _check_bracketed_netloc (netloc : string) : res unit :=
  let hostname_and_port := rpartition_tail "@" netloc in
  match partition "[" hostname_and_port with
  | Some (before_bracket, bracketed) =>
      if nonempty before_bracket then raise (ValueError "Invalid IPv6 URL")
      else
        let '(hostname, port) :=
          match partition "]" bracketed with
          | Some (h, p) => (h, p)
          | None => (bracketed, "")
          end in
        if nonempty port && negb (startswith_char ":" port)
        then raise (ValueError "Invalid IPv6 URL")
        else check (_check_bracketed_host py hostname)
  | None =>
      let hostname :=
        match partition ":" hostname_and_port with
        | Some (h, _) => h
        | None => hostname_and_port
        end in
      check (_check_bracketed_host py hostname)
  end.

(** [_checknetloc(netloc)] *)
Definition _checknetloc (netloc : string) : res unit :=
  if negb (nonempty netloc) || isascii netloc then ok_res tt
  else
    let n := remove_chars (Ascii.eqb "@") netloc in
    let n := remove_chars (Ascii.eqb ":") n in
    let n := remove_chars (Ascii.eqb "#") n in
    let n := remove_chars (Ascii.eqb "?") n in
    let netloc2 := NFKC py (code_points n) in
    if bool_decide (code_points n = netloc2) then ok_res tt
    else if existsb (fun c => existsb (N.eqb (code c)) netloc2)
              ["/"%char; "?"%char; "#"%char; "@"%char; ":"%char]
    then raise (ValueError
                  (String.append "netloc '"
                     (String.append netloc
                        "' contains invalid characters under NFKC normalization")))
    else ok_res tt.

(** The scheme step of [urlsplit]: [(scheme, url)] after it. *)
Definition split_scheme (url : string) : string * string :=
  match partition ":" url with
  | Some (String c0 pre, post) =>
      if isascii_alpha c0 && forall_chars scheme_char (String c0 pre)
      then (lower (String c0 pre), post)
      else ("", url)
  | _ => ("", url)
  end.

(** The netloc step of [urlsplit]: [(netloc, url)] after it. *)
Definition split_netloc (url : string) : res (string * string) :=
  match url with
  | String "/" (String "/" rest) =>
      let '(netloc, url') := _splitnetloc rest in
      let has_open := contains "[" netloc in
      let has_close := contains "]" netloc in
      if (has_open && negb has_close) || (has_close && negb has_open)
      then raise (ValueError "Invalid IPv6 URL")
      else if has_open && has_close
      then res_bind (_check_bracketed_netloc netloc) (fun _ => ok_res (netloc, url'))
      else ok_res (netloc, url')
  | _ => ok_res ("", url)
  end.

(** [urlsplit(url)]: (scheme, netloc, path, query, fragment). *)
Definition urlsplit (url : string) : res (string * string * string * string * string) :=
  let url := lstrip_by c0_control_or_space url in
  let url := remove_chars unsafe_url_byte url in
  let '(scheme, url) := split_scheme url in
  res_bind (split_netloc url) (fun '(netloc, url) =>
  let '(url, fragment) :=
    match partition "#" url with
    | Some (a, b) => (a, b)
    | None => (url, "")
    end in
  let '(url, query) :=
    match partition "?" url with
    | Some (a, b) => (a, b)
    | None => (url, "")
    end in
  res_bind (_checknetloc netloc) (fun _ =>
  ok_res (scheme, netloc, url, query, fragment))).

(** [urlparse(url)] *)
Definition urlparse (url : string) : res ParseResult :=
  res_bind (urlsplit url) (fun '(scheme, netloc, url, query, fragment) =>
  let '(url, params) :=
    if str_in scheme uses_params && contains ";" url
    then _splitparams url
    else (url, "") in
  ok_res {| scheme := scheme; netloc := netloc; path := url;
            params := params; query := query; fragment := fragment |}).

(** [valid_url(raw)]: [bool(parsed.scheme and parsed.netloc)]; the
    exceptions of [urlparse] are not caught. *)
Definition valid_url (raw : string) : res bool :=
  res_bind (urlparse raw) (fun parsed =>
  ok_res (nonempty (if nonempty (scheme parsed) then netloc parsed else scheme parsed))).

End UrlParse.

(** NFKC on the code points up to U+00FF, the ones a [string] holds:
    fourteen of them change, each on its own, whatever stands next to it. *)
Definition nfkc_code_point (c : N) : list N :=
  match c with
  | 160 => [32]
  | 168 => [32; 776]
  | 170 => [97]
  | 175 => [32; 772]
  | 178 => [50]
  | 179 => [51]
  | 180 => [32; 769]
  | 181 => [956]
  | 184 => [32; 807]
  | 185 => [49]
  | 186 => [111]
  | 188 => [49; 8260; 52]
  | 189 => [49; 8260; 50]
  | 190 => [51; 8260; 52]
  | _ => [c]
  end%N.

Definition nfkc_latin1 (s : list N) : list N := flat_map nfkc_code_point s.

(** The instance of releases that do not validate bracketed hosts. *)
Definition no_host_check : Interpreter :=
  {| _check_bracketed_host := fun _ => None; NFKC := nfkc_latin1 |}.

(** The scheme and the netloc that [urlsplit] cuts off its text, before it
    checks the netloc: the decomposition of the text. *)
Definition netloc_of (url : string) : string :=
  match url with
  | String "/" (String "/" rest) => fst (_splitnetloc rest)
  | _ => ""
  end.

Definition scheme_and_netloc (raw : string) : string * string :=
  let url := lstrip_by c0_control_or_space raw in
  let url := remove_chars unsafe_url_byte url in
  let '(scheme, url) := split_scheme url in
  (scheme, netloc_of url).

(** A [ParseResult] as the 6-tuple it is. *)
Definition tuple_of (r : res ParseResult)
  : res (string * string * string * string * string * string) :=
  match r with
  | inr p => inr (scheme p, netloc p, path p, params p, query p, fragment p)
  | inl e => inl e
  end.

(** ** [run_checks] *)

Record CheckResult : Type := {
  name : string;
  ok : bool;
  detail : string
}.

(** The two lists [run_checks] appends to. *)
Record lists : Type := {
  results : list CheckResult;
  errors : list string
}.

(** Statements of [run_checks] act on the two lists and may raise. *)
Definition M (A : Type) : Type := lists -> res (A * lists).

Definition ret {A} (a : A) : M A := fun s => inr (a, s).

Definition bind {A B} (m : M A) (k : A -> M B) : M B :=
  fun s =>
    match m s with
    | inl e => inl e
    | inr (a, s') => k a s'
    end.

Definition lift {A} (r : res A) : M A :=
  fun s =>
    match r with
    | inl e => inl e
    | inr a => inr (a, s)
    end.

Definition results_append (r : CheckResult) : M unit :=
  fun s => inr (tt, {| results := results s ++ [r]; errors := errors s |}).

Definition errors_append (e : string) : M unit :=
  fun s => inr (tt, {| results := results s; errors := errors s ++ [e] |}).

(** [if b: m] *)
Definition when (b : bool) (m : M unit) : M unit := if b then m else ret tt.

Notation "x <- m ;; k" := (bind m (fun x => k))
  (at level 20, m at level 99, k at level 200, only parsing).
Notation "m ;; k" := (bind m (fun _ => k))
  (at level 100, k at level 200, right associativity, only parsing).

(** [x or d] for [x : str | None] *)
Definition str_or (x : option string) (d : string) : string :=
  match x with
  | Some s => if nonempty s then s else d
  | None => d
  end.

(** [bool(x)] for [x : str | None] *)
Definition truthy (x : option string) : bool :=
  match x with
  | Some s => nonempty s
  | None => false
  end.

Definition EXPERT_MODE_KEYS := ["OPENFINCLAW_FIN_EXPERT_MODE"; "FIN_EXPERT_SDK_MODE"].
Definition INFO_MODE_KEYS := ["OPENFINCLAW_FIN_INFO_MODE"; "FIN_INFO_FEED_MODE"].
Definition EXPERT_API_KEY_KEYS := ["OPENFINCLAW_FIN_EXPERT_API_KEY"; "FIN_EXPERT_SDK_API_KEY"].
Definition EXPERT_ENDPOINT_KEYS := ["OPENFINCLAW_FIN_EXPERT_ENDPOINT"; "FIN_EXPERT_SDK_ENDPOINT"].
Definition INFO_API_KEY_KEYS := ["OPENFINCLAW_FIN_INFO_API_KEY"; "FIN_INFO_FEED_API_KEY"].
Definition INFO_ENDPOINT_KEYS := ["OPENFINCLAW_FIN_INFO_ENDPOINT"; "FIN_INFO_FEED_ENDPOINT"].
Definition AUTO_EVALUATE_KEYS :=
  ["OPENFINCLAW_FIN_MONITORING_AUTO_EVALUATE"; "FIN_MONITORING_AUTO_EVALUATE"].
Definition POLL_INTERVAL_KEYS :=
  ["OPENFINCLAW_FIN_MONITORING_POLL_INTERVAL_MS"; "FIN_MONITORING_POLL_INTERVAL_MS"].

(** The alias lists of the eight settings, in the order of use. *)
Definition ALIASES : list (list string) :=
  [EXPERT_MODE_KEYS; INFO_MODE_KEYS; EXPERT_API_KEY_KEYS; EXPERT_ENDPOINT_KEYS;
   INFO_API_KEY_KEYS; INFO_ENDPOINT_KEYS; AUTO_EVALUATE_KEYS; POLL_INTERVAL_KEYS].

(** A key of the namespaced naming convention. *)
Definition namespaced (key : string) : bool := String.prefix "OPENFINCLAW_" key.

Definition MODES := ["stub"; "live"].

Definition EXPERT_CREDENTIALS_ERROR :=
  "Expert live mode requires FIN_EXPERT_SDK_API_KEY and FIN_EXPERT_SDK_ENDPOINT (valid URL)".
Definition INFO_CREDENTIALS_ERROR :=
  "Info live mode requires FIN_INFO_FEED_API_KEY and FIN_INFO_FEED_ENDPOINT (valid URL)".
Definition POLL_INTERVAL_ERROR := "Monitoring poll interval must be >= 10000 ms".

Definition invalid_mode_error (group mode : string) : string :=
  String.append "Invalid " (String.append group
    (String.append " mode: " (String.append mode " (expected stub/live)"))).

Definition poll_detail (monitoring_poll : Z) (monitoring_enabled : bool) : string :=
  String.append (str_of_int monitoring_poll)
    (String.append " (autoEvaluate="
       (String.append (lower_str_of_bool monitoring_enabled) ")")).

Section Validator.

Variable py : Interpreter.

(** [bool(key) and bool(endpoint) and valid_url(endpoint)]: [valid_url]
    is reached only when both operands before it are true. *)
Definition live_ok (key endpoint : option string) : res bool :=
  if truthy key then
    match endpoint with
    | Some e => if nonempty e then valid_url py e else ok_res false
    | None => ok_res false
    end
  else ok_res false.

Definition run_checks_body (env : gmap string string) : M unit :=
  let expert_mode := lower (str_or (pick env EXPERT_MODE_KEYS (Some "stub")) "stub") in
  let info_mode := lower (str_or (pick env INFO_MODE_KEYS (Some "stub")) "stub") in

  when (negb (str_in expert_mode MODES))
    (errors_append (invalid_mode_error "expert" expert_mode)) ;;
  when (negb (str_in info_mode MODES))
    (errors_append (invalid_mode_error "info" info_mode)) ;;

  results_append {| name := "expert.mode"; ok := str_in expert_mode MODES;
                    detail := expert_mode |} ;;
  results_append {| name := "info.mode"; ok := str_in info_mode MODES;
                    detail := info_mode |} ;;

  let expert_key := pick env EXPERT_API_KEY_KEYS None in
  let expert_endpoint := pick env EXPERT_ENDPOINT_KEYS None in
  let info_key := pick env INFO_API_KEY_KEYS None in
  let info_endpoint := pick env INFO_ENDPOINT_KEYS None in

  (if String.eqb expert_mode "live" then
     ok_ <- lift (live_ok expert_key expert_endpoint) ;;
     results_append {| name := "expert.live_credentials"; ok := ok_;
                       detail := "apiKey+endpoint required in live mode" |} ;;
     when (negb ok_) (errors_append EXPERT_CREDENTIALS_ERROR)
   else
     results_append {| name := "expert.live_credentials"; ok := true;
                       detail := "stub mode" |}) ;;

  (if String.eqb info_mode "live" then
     ok_ <- lift (live_ok info_key info_endpoint) ;;
     results_append {| name := "info.live_credentials"; ok := ok_;
                       detail := "apiKey+endpoint required in live mode" |} ;;
     when (negb ok_) (errors_append INFO_CREDENTIALS_ERROR)
   else
     results_append {| name := "info.live_credentials"; ok := true;
                       detail := "stub mode" |}) ;;

  let monitoring_enabled := parse_bool (pick env AUTO_EVALUATE_KEYS None) true in
  let monitoring_poll := parse_int (pick env POLL_INTERVAL_KEYS None) 300000 in
  let monitoring_ok := (10000 <=? monitoring_poll)%Z in
  results_append {| name := "monitoring.poll_interval_ms"; ok := monitoring_ok;
                    detail := poll_detail monitoring_poll monitoring_enabled |} ;;
  when (negb monitoring_ok) (errors_append POLL_INTERVAL_ERROR).

(** [run_checks(env)]: both lists start empty and are returned at the end. *)
Definition run_checks (env : gmap string string) : res (list CheckResult * list string) :=
  match run_checks_body env {| results := []; errors := [] |} with
  | inl e => inl e
  | inr (_, s) => inr (results s, errors s)
  end.

End Validator.


(** ** Names for what [run_checks] computes

    The values bound to the locals of [run_checks], and the lists it has
    built when both credential checks returned [ok3] and [ok4]. *)

Definition CHECK_NAMES : list string :=
  ["expert.mode"; "info.mode"; "expert.live_credentials"; "info.live_credentials";
   "monitoring.poll_interval_ms"].

Definition expert_mode (env : gmap string string) : string :=
  lower (str_or (pick env EXPERT_MODE_KEYS (Some "stub")) "stub").

Definition info_mode (env : gmap string string) : string :=
  lower (str_or (pick env INFO_MODE_KEYS (Some "stub")) "stub").

Definition monitoring_enabled (env : gmap string string) : bool :=
  parse_bool (pick env AUTO_EVALUATE_KEYS None) true.

Definition monitoring_poll (env : gmap string string) : Z :=
  parse_int (pick env POLL_INTERVAL_KEYS None) 300000.

Definition credentials_detail (mode : string) : string :=
  if String.eqb mode "live" then "apiKey+endpoint required in live mode" else "stub mode".

(** The outcome of one credentials check: the [ok] it records, or the
    exception that leaves [run_checks]. *)
Definition credentials (h : Interpreter) (mode : string)
    (key endpoint : option string) : res bool :=
  if String.eqb mode "live" then live_ok h key endpoint else ok_res true.

Definition expert_credentials (h : Interpreter) (env : gmap string string) : res bool :=
  credentials h (expert_mode env)
    (pick env EXPERT_API_KEY_KEYS None) (pick env EXPERT_ENDPOINT_KEYS None).

Definition info_credentials (h : Interpreter) (env : gmap string string) : res bool :=
  credentials h (info_mode env)
    (pick env INFO_API_KEY_KEYS None) (pick env INFO_ENDPOINT_KEYS None).

Definition error_if_not (b : bool) (e : string) : list string := if b then [] else [e].

Definition report_results (env : gmap string string) (ok3 ok4 : bool) : list CheckResult :=
  [ {| name := "expert.mode"; ok := str_in (expert_mode env) MODES;
       detail := expert_mode env |};
    {| name := "info.mode"; ok := str_in (info_mode env) MODES;
       detail := info_mode env |};
    {| name := "expert.live_credentials"; ok := ok3;
       detail := credentials_detail (expert_mode env) |};
    {| name := "info.live_credentials"; ok := ok4;
       detail := credentials_detail (info_mode env) |};
    {| name := "monitoring.poll_interval_ms"; ok := (10000 <=? monitoring_poll env)%Z;
       detail := poll_detail (monitoring_poll env) (monitoring_enabled env) |} ].

Definition report_errors (env : gmap string string) (ok3 ok4 : bool) : list string :=
  error_if_not (str_in (expert_mode env) MODES) (invalid_mode_error "expert" (expert_mode env))
  ++ error_if_not (str_in (info_mode env) MODES) (invalid_mode_error "info" (info_mode env))
  ++ error_if_not ok3 EXPERT_CREDENTIALS_ERROR
  ++ error_if_not ok4 INFO_CREDENTIALS_ERROR
  ++ error_if_not (10000 <=? monitoring_poll env)%Z POLL_INTERVAL_ERROR.

(** The error message that belongs to a failing check, by the check's name. *)
Definition error_of (r : CheckResult) : string :=
  if String.eqb (name r) "expert.mode" then invalid_mode_error "expert" (detail r)
  else if String.eqb (name r) "info.mode" then invalid_mode_error "info" (detail r)
  else if String.eqb (name r) "expert.live_credentials" then EXPERT_CREDENTIALS_ERROR
  else if String.eqb (name r) "info.live_credentials" then INFO_CREDENTIALS_ERROR
  else POLL_INTERVAL_ERROR.

Definition failing (r : CheckResult) : bool := negb (ok r).

(** ** Endpoint shapes

    A scheme as [urlsplit] accepts one: an ASCII letter, then letters,
    digits, [+], [-] and [.].  A plain host character is any character that
    neither ends the netloc, nor is removed from the URL, nor is a square
    bracket. *)

Definition wellformed_scheme (sch : string) : bool :=
  match sch with
  | String c _ => isascii_alpha c && forall_chars scheme_char sch
  | EmptyString => false
  end.

Definition plain_host_char (c : ascii) : bool :=
  negb (netloc_delim c || unsafe_url_byte c || Ascii.eqb c "[" || Ascii.eqb c "]").

(** ** Concrete environments *)

(** Live expert mode, a key, and an endpoint whose bracket is never closed. *)
Definition env_unbalanced_bracket : gmap string string :=
  {[ "OPENFINCLAW_FIN_EXPERT_MODE" := "live";
     "OPENFINCLAW_FIN_EXPERT_API_KEY" := "k";
     "OPENFINCLAW_FIN_EXPERT_ENDPOINT" := "http://[::1" ]}.

Definition env_poll (v : string) : gmap string string :=
  {[ "FIN_MONITORING_POLL_INTERVAL_MS" := v ]}.

Definition env_expert_mode (v : string) : gmap string string :=
  {[ "FIN_EXPERT_SDK_MODE" := v ]}.

Definition env_live (key endpoint : string) : gmap string string :=
  {[ "OPENFINCLAW_FIN_EXPERT_MODE" := "live";
     "FIN_EXPERT_SDK_API_KEY" := key;
     "FIN_EXPERT_SDK_ENDPOINT" := endpoint ]}.

Definition env_both_modes (namespaced legacy : string) : gmap string string :=
  {[ "OPENFINCLAW_FIN_EXPERT_MODE" := namespaced;
     "FIN_EXPERT_SDK_MODE" := legacy ]}.

(** The names of the results a call returned, [None] when it raised. *)
Definition returned_names (r : res (list CheckResult * list string)) : option (list string) :=
  match r with
  | inr (rs, _) => Some (map name rs)
  | inl _ => None
  end.

(** ** [parse_env_file]

    The function is modelled on the text that [path.read_text] returned:
    [None] stands for a path that does not exist.  Failures of the read
    itself (a directory, a decoding error) are outside the model. *)

Definition SQUOTE : ascii := ascii_of_N 39.
Definition DQUOTE : ascii := ascii_of_N 34.

Definition is_squote (c : ascii) : bool := Ascii.eqb c SQUOTE.
Definition is_dquote (c : ascii) : bool := Ascii.eqb c DQUOTE.

(** A character at which [str.splitlines] ends a line: LF, VT, FF, CR, FS,
    GS, RS and NEL. *)
Definition linebreak (c : ascii) : bool :=
  between 10 13 c || between 28 30 c || (code c =? 133)%N.

Definition is_cr (c : ascii) : bool := (code c =? 13)%N.
Definition is_lf (c : ascii) : bool := (code c =? 10)%N.

(** [s.splitlines()]: the head of the result is the line being read.  A LF
    right after a CR belongs to the same line end; text after the last line
    end is a line when it is not empty. *)
Fixpoint splitlines_from (s : string) (after_cr : bool) : list string :=
  match s with
  | EmptyString => []
  | String c s' =>
      if after_cr && is_lf c then splitlines_from s' false
      else if linebreak c then EmptyString :: splitlines_from s' (is_cr c)
      else match splitlines_from s' false with
           | [] => [String c EmptyString]
           | line :: lines => String c line :: lines
           end
  end.

Definition splitlines (s : string) : list string := splitlines_from s false.

(** [s[n:]] *)
Fixpoint drop_chars (n : nat) (s : string) : string :=
  match n, s with
  | O, _ => s
  | S n', String _ s' => drop_chars n' s'
  | S _, EmptyString => EmptyString
  end.

(** [s.strip(chars)] for the characters satisfying [p]. *)
Definition strip_chars (p : ascii -> bool) (s : string) : string :=
  rstrip_by p (lstrip_by p s).

(** The body of the loop of [parse_env_file] on one line: the assignment
    [loaded[key] = value] it makes, or [None] when it makes none. *)
Definition env_line (raw_line : string) : option (string * string) :=
  let line := strip raw_line in
  if negb (nonempty line) || startswith_char "#" line then None
  else
    let line :=
      if String.prefix "export " line
      then strip (drop_chars (String.length "export ") line)
      else line in
    match partition "=" line with
    | None => None
    | Some (key, value) =>
        let key := strip key in
        let value := strip_chars is_dquote (strip_chars is_squote (strip value)) in
        if nonempty key then Some (key, value) else None
    end.

(** The loop of [parse_env_file] over the lines, from the map [loaded]. *)
Fixpoint load_lines (loaded : gmap string string) (lines : list string)
  : gmap string string :=
  match lines with
  | [] => loaded
  | raw_line :: lines' =>
      match env_line raw_line with
      | Some (key, value) => load_lines (<[key := value]> loaded) lines'
      | None => load_lines loaded lines'
      end
  end.

Definition parse_env_text (text : string) : gmap string string :=
  load_lines ∅ (splitlines text).

(** [parse_env_file(path)] *)
Definition parse_env_file (file : option string) : gmap string string :=
  match file with
  | None => ∅
  | Some text => parse_env_text text
  end.

(** ** [main]

    [env_file] is the path as [print] shows it, [strict_file] the flag,
    [file] the text of the env file ([None] when it does not exist) and
    [environ] the process environment.  The result is the exit code with the
    arguments of the [print] calls, in order.

    The model starts once the arguments are parsed and the file is read:
    [argparse] leaving on bad arguments, [read_text] raising on a file it
    cannot read or decode, and [print] raising are outside it, so the only
    exceptions of this [main] are those of [run_checks]. *)

Definition NEWLINE : string := String (ascii_of_N 10) EmptyString.

Definition status_line (row : CheckResult) : string :=
  String.append "- ["
    (String.append (if ok row then "PASS" else "FAIL")
       (String.append "] "
          (String.append (name row) (String.append ": " (detail row))))).

Definition env_file_line (env_file : string) (found : bool) : string :=
  String.append "- env file: "
    (String.append env_file
       (String.append " ("
          (String.append (if found then "found" else "missing, using process env only")
             ")"))).

Definition found (file : option string) : bool :=
  match file with
  | Some _ => true
  | None => false
  end.

Section Main.

Variable py : Interpreter.

Definition main (env_file : string) (strict_file : bool) (file : option string)
    (environ : gmap string string) : res (Z * list string) :=
  let file_values := parse_env_file file in
  if strict_file && negb (found file) then
    ok_res (1%Z, [String.append "[FAIL] env file not found: " env_file])
  else
    let merged := environ ∪ file_values in
    res_bind (run_checks py merged) (fun '(results, errors) =>
    let printed :=
      ["Finance env validation (uv):"; env_file_line env_file (found file)]
      ++ map status_line results in
    match errors with
    | _ :: _ =>
        ok_res (1%Z, printed ++ [String.append NEWLINE "Errors:"]
                     ++ map (String.append "- ") errors)
    | [] =>
        ok_res (0%Z, printed ++ [String.append NEWLINE "All finance environment checks passed."])
    end).

End Main.

(** All keys that [run_checks] looks up. *)
Definition ALL_KEYS : list string := concat ALIASES.

(** What [split_netloc] does once its input starts with two slashes. *)
Definition after_slashes (h : Interpreter) (rest : string)
  : res (string * string) :=
  let '(nl, url') := _splitnetloc rest in
  if (contains "[" nl && negb (contains "]" nl)) || (contains "]" nl && negb (contains "[" nl))
  then raise (ValueError "Invalid IPv6 URL")
  else if contains "[" nl && contains "]" nl
  then res_bind (_check_bracketed_netloc h nl) (fun _ => ok_res (nl, url'))
  else ok_res (nl, url').

(** ** Ends of strings *)

(** The first character of [s], if there is one, does not satisfy [p]. *)
Definition head_free (p : ascii -> bool) (s : string) : bool :=
  match s with
  | String c _ => negb (p c)
  | EmptyString => true
  end.

(** The last character of [s], if there is one, does not satisfy [p]. *)
Fixpoint last_free (p : ascii -> bool) (s : string) : bool :=
  match s with
  | EmptyString => true
  | String c EmptyString => negb (p c)
  | String _ s' => last_free p s'
  end.

(** ** Keys and values of env-file lines *)

(** A key as the loop of [parse_env_file] stores it: not empty, no blank
    at either end, no [=]. *)
Definition kept_key (k : string) : bool :=
  nonempty k && head_free isspace k && last_free isspace k && negb (contains "=" k).

(** A key that can open a line and be read back: a kept key that starts
    neither a comment nor with the word [export] and a blank. *)
Definition plain_key (k : string) : bool :=
  kept_key k && negb (startswith_char "#" k) && negb (String.prefix "export " k).

(** [value.strip(q).strip(qq)] for the single quote [q] and the double
    quote [qq]. *)
Definition unquote (value : string) : string :=
  strip_chars is_dquote (strip_chars is_squote value).

(** [c + s + c] *)
Definition wrap (c : ascii) (s : string) : string :=
  String c (String.append s (String c EmptyString)).

(** ** The runtime model on known values *)

Example int_plain : py_int "12" = Some 12%Z.
Proof. reflexivity. Qed.

Example int_surrounding_blanks : py_int " 12 " = Some 12%Z.
Proof. reflexivity. Qed.

Example int_underscore : py_int "1_000" = Some 1000%Z.
Proof. reflexivity. Qed.

Example int_signs : py_int "+5" = Some 5%Z /\ py_int "-5" = Some (-5)%Z /\ py_int "+-5" = None.
Proof. repeat split. Qed.

Example int_leading_zeros : py_int "007" = Some 7%Z.
Proof. reflexivity. Qed.

Example int_malformed :
  map py_int [""; "+"; "_1"; "1_"; "1__0"; "0x10"; "1 2"; "1e3"; "1.0"; "- 5"]
  = [None; None; None; None; None; None; None; None; None; None].
Proof. reflexivity. Qed.

Example str_of_int_values :
  map str_of_int [300000; 0; -5]%Z = ["300000"; "0"; "-5"].
Proof. reflexivity. Qed.

Example strip_keeps_inner_blanks : strip "  a b  " = "a b".
Proof. reflexivity. Qed.

Example lower_mixed_case : lower "LiVe" = "live".
Proof. reflexivity. Qed.

Example parse_bool_values :
  map (fun raw => parse_bool (Some raw) true) ["0"; " OFF "; "No"; "false"; "maybe"; "1"]
  = [false; false; false; false; true; true].
Proof. reflexivity. Qed.

Example urlparse_values :
  map (fun raw => tuple_of (urlparse no_host_check raw))
    ["not-a-url"; "https://api.example.com"; "//host"; "mailto:x"; "HTTP://h/p;a?q#f";
     "1http://x"; " http://x"; "a:b://c"; "http:///p"; "h+-.1://@"; "http://[::1]";
     "x://u@[::1]:80"]
  = [inr ("", "", "not-a-url", "", "", "");
     inr ("https", "api.example.com", "", "", "", "");
     inr ("", "host", "", "", "", "");
     inr ("mailto", "", "x", "", "", "");
     inr ("http", "h", "/p", "a", "q", "f");
     inr ("", "", "1http://x", "", "", "");
     inr ("http", "x", "", "", "", "");
     inr ("a", "", "b://c", "", "", "");
     inr ("http", "", "/p", "", "", "");
     inr ("h+-.1", "@", "", "", "", "");
     inr ("http", "[::1]", "", "", "", "");
     inr ("x", "u@[::1]:80", "", "", "", "")].
Proof. reflexivity. Qed.

Example urlparse_raises :
  map (fun raw => tuple_of (urlparse no_host_check raw))
    ["http://[::1"; "http://::1]"; "http://x[::1]"; "x://[::1]x"]
  = [inl (ValueError "Invalid IPv6 URL"); inl (ValueError "Invalid IPv6 URL");
     inl (ValueError "Invalid IPv6 URL"); inl (ValueError "Invalid IPv6 URL")].
Proof. reflexivity. Qed.

Example valid_url_values :
  map (valid_url no_host_check)
    ["https://api.example.com"; "ftp://x"; "not-a-url"; "//host"; "mailto:x"; "/a/b"]
  = [inr true; inr true; inr false; inr false; inr false; inr false].
Proof. reflexivity. Qed.

(** A host with a code point above U+007F goes through [_checknetloc]: the
    micro sign normalises to a Greek letter, not to a delimiter. *)
Example valid_url_latin1_host :
  valid_url no_host_check (String.append "http://a" (String (ascii_of_N 181) "b"))
  = inr true.
Proof. vm_compute. reflexivity. Qed.

Example scheme_and_netloc_values :
  map scheme_and_netloc
    ["not-a-url"; "https://api.example.com/v1"; "//host"; "mailto:x"; "http://[::1"]
  = [("", ""); ("https", "api.example.com"); ("", "host"); ("mailto", ""); ("http", "[::1")].
Proof. reflexivity. Qed.

(** ** Properties *)

Section Properties.

Variable h : Interpreter.

Lemma run_checks_unfold (env : gmap string string) :
  run_checks h env =
    res_bind (expert_credentials h env) (fun ok3 =>
    res_bind (info_credentials h env) (fun ok4 =>
    ok_res (report_results env ok3 ok4, report_errors env ok3 ok4))).
Proof.
  unfold run_checks, run_checks_body, expert_credentials, info_credentials,
    credentials, report_results, report_errors, credentials_detail.
  fold (expert_mode env) (info_mode env) (monitoring_poll env) (monitoring_enabled env).
  generalize (str_in (expert_mode env) MODES) (str_in (info_mode env) MODES)
    (String.eqb (expert_mode env) "live") (String.eqb (info_mode env) "live")
    (live_ok h (pick env EXPERT_API_KEY_KEYS None) (pick env EXPERT_ENDPOINT_KEYS None))
    (live_ok h (pick env INFO_API_KEY_KEYS None) (pick env INFO_ENDPOINT_KEYS None))
    (10000 <=? monitoring_poll env)%Z.
  intros valid1 valid2 live1 live2 c3 c4 ok5.
  destruct valid1, valid2, live1, live2, c3 as [e3 | [|]], c4 as [e4 | [|]], ok5;
    reflexivity.
Qed.

Lemma run_checks_returns (env : gmap string string) rs es :
  run_checks h env = inr (rs, es) <->
  exists ok3 ok4,
    expert_credentials h env = inr ok3 /\ info_credentials h env = inr ok4 /\
    rs = report_results env ok3 ok4 /\ es = report_errors env ok3 ok4.
Proof.
  rewrite run_checks_unfold. unfold res_bind, ok_res.
  destruct (expert_credentials h env) as [e3 | ok3].
  { split; [discriminate | intros (? & ? & ? & _); discriminate]. }
  destruct (info_credentials h env) as [e4 | ok4].
  { split; [discriminate | intros (? & ? & _ & ? & _); discriminate]. }
  split.
  - intros [= <- <-]. exists ok3, ok4. repeat split.
  - intros (? & ? & [= <-] & [= <-] & -> & ->). reflexivity.
Qed.

Lemma run_checks_raises (env : gmap string string) e :
  run_checks h env = inl e <->
  expert_credentials h env = inl e \/
  (exists ok3, expert_credentials h env = inr ok3 /\ info_credentials h env = inl e).
Proof.
  rewrite run_checks_unfold. unfold res_bind, ok_res.
  destruct (expert_credentials h env) as [e3 | ok3].
  { split; [intros [= ->]; by left | intros [[= ->] | (? & ? & _)]; [done | discriminate]]. }
  destruct (info_credentials h env) as [e4 | ok4].
  - split; [intros [= ->]; eauto | intros [? | (? & _ & [= ->])]; [discriminate | done]].
  - split; [discriminate | intros [? | (? & _ & ?)]; discriminate].
Qed.

Lemma str_in_MODES (m : string) :
  str_in m MODES = true <-> m = "stub" \/ m = "live".
Proof.
  unfold str_in, MODES. simpl.
  rewrite !orb_true_iff, !String.eqb_eq. intuition discriminate.
Qed.

Lemma str_in_MODES_false (m : string) :
  str_in m MODES = false <-> m <> "stub" /\ m <> "live".
Proof.
  rewrite <- not_true_iff_false, str_in_MODES. tauto.
Qed.

(** On every run that returns, the results carry the five names in order. *)
Lemma run_checks_names (env : gmap string string) rs es :
  run_checks h env = inr (rs, es) -> map name rs = CHECK_NAMES.
Proof.
  intros (ok3 & ok4 & _ & _ & -> & _)%run_checks_returns. reflexivity.
Qed.

(** ** The uncaught [ValueError] of [urlparse] *)

(** A bracketed host that [_check_bracketed_host] rejects has the same
    effect as an unbalanced bracket. *)
Lemma run_checks_raises_on_rejected_host (e : exn) :
  _check_bracketed_host h "abc" = Some e ->
  run_checks h (env_live "k" "http://[abc]") = inl e.
Proof.
  intros Hrej. apply run_checks_raises. left.
  vm_compute. vm_compute in Hrej. rewrite Hrej. reflexivity.
Qed.

(** C4. With a live expert mode, a key, and the endpoint ["http://[::1"],
    [run_checks] does not return: the [ValueError] that [urlparse] raises
    on the unbalanced bracket leaves [valid_url] and [run_checks].  An
    exception leaves [run_checks] exactly when one of the two credential
    checks raises it. *)
Theorem run_checks_raises_ValueError :
  run_checks h env_unbalanced_bracket = inl (ValueError "Invalid IPv6 URL") /\
  (forall env e,
     run_checks h env = inl e <->
     expert_credentials h env = inl e \/
     (exists ok3, expert_credentials h env = inr ok3 /\ info_credentials h env = inl e)).
Proof.
  split; [vm_compute; reflexivity | exact run_checks_raises].
Qed.

(** C1. On that input [run_checks] returns no result list at all, so not
    five results under the five names. *)
Theorem run_checks_no_five_results :
  returned_names (run_checks h env_unbalanced_bracket) = None.
Proof. vm_compute. reflexivity. Qed.

(** C3. On that input the expert mode resolves to live, key and endpoint
    resolve to non-empty values and the endpoint is not a valid URL; yet
    no [expert.live_credentials] result with [ok = false] and no error
    string come back: [valid_url] raises, and so does [run_checks]. *)
Theorem expert_credentials_raise :
  expert_mode env_unbalanced_bracket = "live" /\
  pick env_unbalanced_bracket EXPERT_API_KEY_KEYS None = Some "k" /\
  pick env_unbalanced_bracket EXPERT_ENDPOINT_KEYS None = Some "http://[::1" /\
  valid_url h "http://[::1" = inl (ValueError "Invalid IPv6 URL") /\
  expert_credentials h env_unbalanced_bracket = inl (ValueError "Invalid IPv6 URL") /\
  run_checks h env_unbalanced_bracket = inl (ValueError "Invalid IPv6 URL").
Proof. repeat split; vm_compute; reflexivity. Qed.

(** ** The empty map *)

(** C8. The empty map: both modes resolve to stub, both credential checks
    pass as stub mode, the interval is 300000 and passes, auto-evaluate is
    true, every result is ok and there is no error. *)
Theorem run_checks_empty :
  run_checks h ∅ =
    inr ([ {| name := "expert.mode"; ok := true; detail := "stub" |};
           {| name := "info.mode"; ok := true; detail := "stub" |};
           {| name := "expert.live_credentials"; ok := true; detail := "stub mode" |};
           {| name := "info.live_credentials"; ok := true; detail := "stub mode" |};
           {| name := "monitoring.poll_interval_ms"; ok := true;
              detail := "300000 (autoEvaluate=true)" |} ],
         []) /\
  expert_mode ∅ = "stub" /\ info_mode ∅ = "stub" /\
  monitoring_poll ∅ = 300000%Z /\ monitoring_enabled ∅ = true.
Proof. repeat split; vm_compute; reflexivity. Qed.

(** ** Errors against results *)

Lemma report_errors_of_results (env : gmap string string) ok3 ok4 :
  report_errors env ok3 ok4 =
    map error_of (List.filter failing (report_results env ok3 ok4)).
Proof.
  unfold report_errors, report_results, error_if_not, failing.
  destruct (str_in (expert_mode env) MODES), (str_in (info_mode env) MODES),
    ok3, ok4, (10000 <=? monitoring_poll env)%Z; reflexivity.
Qed.

(** C2. When [run_checks] returns, the error list is empty exactly when
    every returned result has [ok = true]. *)
Theorem errors_empty_iff_all_ok (env : gmap string string) rs es :
  run_checks h env = inr (rs, es) ->
  (es = [] <-> Forall (fun r => ok r = true) rs).
Proof.
  intros (ok3 & ok4 & _ & _ & -> & ->)%run_checks_returns.
  rewrite report_errors_of_results.
  generalize (report_results env ok3 ok4) as l.
  induction l as [| r l IH]; simpl.
  - split; [constructor | reflexivity].
  - unfold failing at 1. destruct (ok r) eqn:Hr; simpl.
    + rewrite IH. split; [by constructor | by inversion 1].
    + split; [discriminate | inversion 1; congruence].
Qed.

(** C10. When [run_checks] returns, the errors are the messages of the
    failing results, one each and in the order of the results. *)
Theorem errors_follow_failing_results (env : gmap string string) rs es :
  run_checks h env = inr (rs, es) ->
  es = map error_of (List.filter failing rs) /\
  length es = length (List.filter failing rs) /\
  map name rs = CHECK_NAMES.
Proof.
  intros (ok3 & ok4 & _ & _ & -> & ->)%run_checks_returns.
  rewrite report_errors_of_results.
  split; [reflexivity | split; [apply length_map | reflexivity]].
Qed.

(** ** Alias lookup *)

Lemma nonempty_true (s : string) : nonempty s = true <-> s <> "".
Proof. destruct s; simpl; split; congruence. Qed.

Lemma nonempty_false (s : string) : nonempty s = false <-> s = "".
Proof. destruct s; simpl; split; congruence. Qed.

Lemma pick_skip (env : gmap string string) key keys d :
  strip (dict_get env key "") = "" -> pick env (key :: keys) d = pick env keys d.
Proof. intros H0. simpl. rewrite H0. reflexivity. Qed.

Lemma pick_hit (env : gmap string string) key keys d :
  strip (dict_get env key "") <> "" ->
  pick env (key :: keys) d = Some (strip (dict_get env key "")).
Proof.
  intros H0%nonempty_true. simpl. rewrite H0. reflexivity.
Qed.

Lemma pick_first (env : gmap string string) pre key post d :
  (forall k, In k pre -> strip (dict_get env k "") = "") ->
  strip (dict_get env key "") <> "" ->
  pick env (pre ++ key :: post) d = Some (strip (dict_get env key "")).
Proof.
  induction pre as [| k pre IH]; intros Hpre Hkey.
  - apply pick_hit, Hkey.
  - rewrite <- app_comm_cons, pick_skip by (apply Hpre; left; reflexivity).
    apply IH; [| assumption]. intros k' Hk'. apply Hpre. right. assumption.
Qed.

Lemma pick_none (env : gmap string string) keys d :
  (forall k, In k keys -> strip (dict_get env k "") = "") -> pick env keys d = d.
Proof.
  induction keys as [| k keys IH]; intros Hall; [reflexivity |].
  rewrite pick_skip by (apply Hall; left; reflexivity).
  apply IH. intros k' Hk'. apply Hall. right. assumption.
Qed.

(** What [pick] returns is the default or a trimmed, non-empty value. *)
Lemma pick_Some_nonempty (env : gmap string string) keys v :
  pick env keys None = Some v -> v <> "".
Proof.
  induction keys as [| k keys IH]; simpl; [discriminate |].
  destruct (nonempty (strip (dict_get env k ""))) eqn:Hk; [| exact IH].
  intros [= <-]. apply nonempty_true, Hk.
Qed.

(** C6. [pick] goes through the keys in their order: the first key whose
    value is non-empty after trimming decides, and its trimmed value is
    returned; when no key has such a value the default is returned.  With
    both keys of a setting set to different values, the namespaced one,
    which comes first in each alias list, wins whenever it is non-empty
    after trimming. *)
Theorem pick_priority (env : gmap string string) (keys : list string) (d : option string) :
  (forall pre key post,
      keys = pre ++ key :: post ->
      (forall k, In k pre -> strip (dict_get env k "") = "") ->
      strip (dict_get env key "") <> "" ->
      pick env keys d = Some (strip (dict_get env key ""))) /\
  ((forall k, In k keys -> strip (dict_get env k "") = "") -> pick env keys d = d) /\
  (forall first legacy v1 v2,
      keys = [first; legacy] ->
      env !! first = Some v1 -> env !! legacy = Some v2 -> v1 <> v2 ->
      strip v1 <> "" ->
      pick env keys d = Some (strip v1)) /\
  Forall (fun aliases => exists first legacy,
            aliases = [first; legacy] /\ namespaced first = true /\
            namespaced legacy = false) ALIASES.
Proof.
  split; [| split; [| split]].
  - intros pre key post -> Hpre Hkey. apply pick_first; assumption.
  - apply pick_none.
  - intros first legacy v1 v2 -> H1 _ _ Hv1.
    assert (Hget : dict_get env first "" = v1) by (unfold dict_get; rewrite H1; reflexivity).
    rewrite pick_hit; rewrite Hget; [reflexivity | assumption].
  - unfold ALIASES. repeat constructor; eexists _, _; repeat split; reflexivity.
Qed.

(** ** The mode checks *)

Lemma invalid_mode_error_eq (group mode : string) :
  invalid_mode_error group mode =
    String.append "Invalid " (String.append group (String.append " mode: "
      (String.append mode " (expected stub/live)"))).
Proof. reflexivity. Qed.

(** C7. When [run_checks] returns and the resolved expert mode is neither
    stub nor live, the first result is [expert.mode] with [ok = false] and
    the resolved mode as its detail, and the error naming that mode is in
    the error list; the same holds for the info mode and the second
    result. *)
Theorem invalid_mode_recorded (env : gmap string string) rs es :
  run_checks h env = inr (rs, es) ->
  (expert_mode env <> "stub" -> expert_mode env <> "live" ->
     rs !! 0%nat = Some {| name := "expert.mode"; ok := false; detail := expert_mode env |} /\
     In (String.append "Invalid expert mode: "
           (String.append (expert_mode env) " (expected stub/live)")) es) /\
  (info_mode env <> "stub" -> info_mode env <> "live" ->
     rs !! 1%nat = Some {| name := "info.mode"; ok := false; detail := info_mode env |} /\
     In (String.append "Invalid info mode: "
           (String.append (info_mode env) " (expected stub/live)")) es).
Proof.
  intros (ok3 & ok4 & _ & _ & -> & ->)%run_checks_returns.
  unfold report_results, report_errors.
  split; intros Hs Hl;
    assert (Hm : str_in _ MODES = false) by (apply str_in_MODES_false; split; eassumption);
    rewrite Hm; (split; [reflexivity |]).
  - apply in_or_app. left. left. reflexivity.
  - apply in_or_app. right. apply in_or_app. left. left. reflexivity.
Qed.

(** ** The credential checks *)

Lemma live_ok_true (key endpoint : option string) :
  live_ok h key endpoint = inr true <->
  exists k e, key = Some k /\ k <> "" /\ endpoint = Some e /\ e <> "" /\
              valid_url h e = inr true.
Proof.
  unfold live_ok, truthy, ok_res. split.
  - destruct key as [k |]; [| discriminate].
    destruct (nonempty k) eqn:Hk; [| discriminate].
    destruct endpoint as [e |]; [| discriminate].
    destruct (nonempty e) eqn:He; [| discriminate].
    intros Hv. exists k, e. rewrite <- !nonempty_true. auto.
  - intros (k & e & -> & Hk%nonempty_true & -> & He%nonempty_true & Hv).
    rewrite Hk, He. exact Hv.
Qed.

(** On every run that returns, the third result is the expert credentials
    check with the [ok] that [expert_credentials] computed, and its error
    string is in the error list exactly when that [ok] is false. *)
Lemma expert_credentials_recorded (env : gmap string string) rs es :
  run_checks h env = inr (rs, es) ->
  exists ok3,
    expert_credentials h env = inr ok3 /\
    rs !! 2%nat = Some {| name := "expert.live_credentials"; ok := ok3;
                          detail := credentials_detail (expert_mode env) |} /\
    (In EXPERT_CREDENTIALS_ERROR es <-> ok3 = false).
Proof.
  intros (ok3 & ok4 & H3 & _ & -> & ->)%run_checks_returns.
  exists ok3. split; [exact H3 | split; [reflexivity |]].
  unfold report_errors, error_if_not.
  destruct (str_in (expert_mode env) MODES), (str_in (info_mode env) MODES),
    ok3, ok4, (10000 <=? monitoring_poll env)%Z; simpl; intuition discriminate.
Qed.

Lemma info_credentials_recorded (env : gmap string string) rs es :
  run_checks h env = inr (rs, es) ->
  exists ok4,
    info_credentials h env = inr ok4 /\
    rs !! 3%nat = Some {| name := "info.live_credentials"; ok := ok4;
                          detail := credentials_detail (info_mode env) |} /\
    (In INFO_CREDENTIALS_ERROR es <-> ok4 = false).
Proof.
  intros (ok3 & ok4 & _ & H4 & -> & ->)%run_checks_returns.
  exists ok4. split; [exact H4 | split; [reflexivity |]].
  unfold report_errors, error_if_not.
  destruct (str_in (expert_mode env) MODES), (str_in (info_mode env) MODES),
    ok3, ok4, (10000 <=? monitoring_poll env)%Z; simpl; intuition discriminate.
Qed.

(** ** The monitoring check *)



(** ** The URL predicate *)

Ltac each_ascii c :=
  let b0 := fresh "b" in let b1 := fresh "b" in let b2 := fresh "b" in
  let b3 := fresh "b" in let b4 := fresh "b" in let b5 := fresh "b" in
  let b6 := fresh "b" in let b7 := fresh "b" in
  destruct c as [b0 b1 b2 b3 b4 b5 b6 b7];
  destruct b0, b1, b2, b3, b4, b5, b6, b7.

Lemma alpha_not_c0 (c : ascii) :
  isascii_alpha c = true -> c0_control_or_space c = false.
Proof.
  each_ascii c; vm_compute; intros; solve [reflexivity | discriminate].
Qed.

Lemma scheme_char_plain (c : ascii) :
  scheme_char c = true -> unsafe_url_byte c = false /\ Ascii.eqb c ":" = false.
Proof.
  each_ascii c; vm_compute; intros; solve [split; reflexivity | discriminate].
Qed.

Lemma plain_host_char_inv (c : ascii) :
  plain_host_char c = true ->
  netloc_delim c = false /\ unsafe_url_byte c = false /\
  Ascii.eqb c "[" = false /\ Ascii.eqb c "]" = false.
Proof.
  unfold plain_host_char. rewrite negb_true_iff, !orb_false_iff. tauto.
Qed.

Lemma remove_chars_app (p : ascii -> bool) (a b : string) :
  remove_chars p (String.append a b) = String.append (remove_chars p a) (remove_chars p b).
Proof.
  induction a as [| c a IH]; simpl; [reflexivity |].
  destruct (p c); simpl; rewrite IH; reflexivity.
Qed.

Lemma remove_chars_id (p q : ascii -> bool) (s : string) :
  (forall c, q c = true -> p c = false) ->
  forall_chars q s = true -> remove_chars p s = s.
Proof.
  intros Hpq. induction s as [| c s IH]; simpl; [reflexivity |].
  intros [Hc Hs]%andb_true_iff. rewrite (Hpq c Hc), IH by assumption. reflexivity.
Qed.

Lemma contains_false (q : ascii -> bool) (sep : ascii) (s : string) :
  (forall c, q c = true -> Ascii.eqb c sep = false) ->
  forall_chars q s = true -> contains sep s = false.
Proof.
  intros Hq. induction s as [| c s IH]; simpl; [reflexivity |].
  intros [Hc Hs]%andb_true_iff. rewrite (Hq c Hc), IH by assumption. reflexivity.
Qed.

Lemma partition_app (sep : ascii) (a b : string) :
  contains sep a = false ->
  partition sep (String.append a (String sep b)) = Some (a, b).
Proof.
  induction a as [| c a IH]; simpl.
  - intros _. rewrite Ascii.eqb_refl. reflexivity.
  - intros [Hc Ha]%orb_false_iff. rewrite Hc, IH by assumption. reflexivity.
Qed.

Lemma span_until_none (p q : ascii -> bool) (s : string) :
  (forall c, q c = true -> p c = false) ->
  forall_chars q s = true -> span_until p s = (s, "").
Proof.
  intros Hpq. induction s as [| c s IH]; simpl; [reflexivity |].
  intros [Hc Hs]%andb_true_iff. rewrite (Hpq c Hc), IH by assumption. reflexivity.
Qed.

Lemma lstrip_by_keep (p : ascii -> bool) (s : string) :
  match s with
  | String c _ => p c = false
  | EmptyString => True
  end ->
  lstrip_by p s = s.
Proof. destruct s as [| c s]; simpl; [reflexivity |]. intros ->. reflexivity. Qed.

Lemma lower_nonempty (s : string) : nonempty (lower s) = nonempty s.
Proof. destruct s; reflexivity. Qed.

Lemma split_scheme_wellformed (sch rest : string) :
  wellformed_scheme sch = true ->
  split_scheme (String.append sch (String ":" rest)) = (lower sch, rest).
Proof.
  unfold wellformed_scheme, split_scheme.
  destruct sch as [| c0 pre]; [discriminate |].
  intros Hwf. destruct (andb_prop _ _ Hwf) as [_ Hchars].
  rewrite partition_app.
  - rewrite Hwf. reflexivity.
  - apply (contains_false scheme_char); [| exact Hchars].
    intros c Hc. apply scheme_char_plain, Hc.
Qed.

Lemma split_netloc_plain (host : string) :
  forall_chars plain_host_char host = true ->
  split_netloc h (String "/" (String "/" host)) = inr (host, "").
Proof.
  intros Hhost. unfold split_netloc, _splitnetloc.
  rewrite (span_until_none netloc_delim plain_host_char) by
    (assumption || (intros c Hc; apply plain_host_char_inv, Hc)).
  rewrite (contains_false plain_host_char "[") by
    (assumption || (intros c Hc; apply plain_host_char_inv, Hc)).
  rewrite (contains_false plain_host_char "]") by
    (assumption || (intros c Hc; apply plain_host_char_inv, Hc)).
  reflexivity.
Qed.

(** ["not-a-url"] as a live endpoint: on every run that returns, the
    credentials check has failed with its error. *)
Lemma not_a_url_fails_credentials (env : gmap string string) rs es :
  run_checks h env = inr (rs, es) ->
  expert_mode env = "live" ->
  pick env EXPERT_ENDPOINT_KEYS None = Some "not-a-url" ->
  rs !! 2%nat = Some {| name := "expert.live_credentials"; ok := false;
                        detail := "apiKey+endpoint required in live mode" |} /\
  In EXPERT_CREDENTIALS_ERROR es.
Proof.
  assert (Hkey : forall key, live_ok h key (Some "not-a-url") = inr false).
  { intros key. unfold live_ok. destruct (truthy key); reflexivity. }
  intros Hrun Hlive Hend.
  destruct (expert_credentials_recorded env rs es Hrun) as (ok3 & H3 & Hrs & Herr).
  unfold expert_credentials in H3. rewrite Hlive in H3, Hrs.
  change (credentials h "live") with (live_ok h) in H3.
  rewrite Hend, Hkey in H3. injection H3 as <-.
  split; [exact Hrs | apply Herr; reflexivity].
Qed.

End Properties.

(** ** The theorems at concrete inputs *)

Lemma errors_empty_iff_all_ok_witness :
  exists rs es,
    run_checks no_host_check (env_poll "10000") = inr (rs, es) /\
    (es = [] <-> Forall (fun r => ok r = true) rs).
Proof.
  eexists _, _. split; [vm_compute; reflexivity |].
  apply (errors_empty_iff_all_ok no_host_check (env_poll "10000")).
  vm_compute. reflexivity.
Defined.

Lemma errors_follow_failing_results_witness :
  exists rs es,
    run_checks no_host_check (env_poll "9999") = inr (rs, es) /\
    es = map error_of (List.filter failing rs) /\
    length es = length (List.filter failing rs) /\
    map name rs = CHECK_NAMES.
Proof.
  eexists _, _. split; [vm_compute; reflexivity |].
  apply (errors_follow_failing_results no_host_check (env_poll "9999")).
  vm_compute. reflexivity.
Defined.

Lemma invalid_mode_recorded_witness :
  exists rs es,
    run_checks no_host_check (env_expert_mode "production") = inr (rs, es) /\
    rs !! 0%nat = Some {| name := "expert.mode"; ok := false; detail := "production" |} /\
    In "Invalid expert mode: production (expected stub/live)" es.
Proof.
  eexists _, _. split; [vm_compute; reflexivity |].
  refine (proj1 (invalid_mode_recorded no_host_check (env_expert_mode "production") _ _ _) _ _).
  - vm_compute. reflexivity.
  - vm_compute. discriminate.
  - vm_compute. discriminate.
Defined.


Lemma pick_priority_witness :
  env_both_modes "live" "stub" !! "OPENFINCLAW_FIN_EXPERT_MODE" = Some "live" /\
  env_both_modes "live" "stub" !! "FIN_EXPERT_SDK_MODE" = Some "stub" /\
  pick (env_both_modes "live" "stub") EXPERT_MODE_KEYS (Some "stub") = Some "live".
Proof.
  split; [vm_compute; reflexivity | split; [vm_compute; reflexivity |]].
  refine (proj1 (proj2 (proj2 (pick_priority (env_both_modes "live" "stub")
            EXPERT_MODE_KEYS (Some "stub")))) _ _ "live" "stub" _ _ _ _ _).
  - reflexivity.
  - vm_compute. reflexivity.
  - vm_compute. reflexivity.
  - discriminate.
  - vm_compute. discriminate.
Defined.

(** * Further properties *)

(** ** Stripping *)

Lemma lstrip_by_head_free (p : ascii -> bool) (s : string) :
  head_free p (lstrip_by p s) = true.
Proof.
  induction s as [| c s IH]; simpl; [reflexivity |].
  destruct (p c) eqn:Hc; [exact IH |]. simpl. rewrite Hc. reflexivity.
Qed.

Lemma lstrip_by_fix (p : ascii -> bool) (s : string) :
  head_free p s = true -> lstrip_by p s = s.
Proof.
  destruct s as [| c s]; simpl; [reflexivity |].
  intros Hc%negb_true_iff. rewrite Hc. reflexivity.
Qed.

Lemma rstrip_by_nil (p : ascii -> bool) (s : string) :
  rstrip_by p s = "" <-> forall_chars p s = true.
Proof.
  induction s as [| c s IH]; simpl; [tauto |].
  destruct (rstrip_by p s) as [| d r] eqn:Hr; simpl.
  - destruct (p c); simpl.
    + split; [intros _; apply IH; reflexivity | reflexivity].
    + split; discriminate.
  - rewrite andb_true_iff. split; [discriminate |].
    intros [_ Hs]. apply IH in Hs. discriminate.
Qed.

Lemma rstrip_by_last_free (p : ascii -> bool) (s : string) :
  last_free p (rstrip_by p s) = true.
Proof.
  induction s as [| c s IH]; simpl; [reflexivity |].
  destruct (rstrip_by p s) as [| d r] eqn:Hr; simpl.
  - destruct (p c) eqn:Hc; simpl; [reflexivity | rewrite Hc; reflexivity].
  - exact IH.
Qed.

Lemma rstrip_by_fix (p : ascii -> bool) (s : string) :
  last_free p s = true -> rstrip_by p s = s.
Proof.
  induction s as [| c s IH]; [reflexivity |].
  intros Hlast. simpl. destruct s as [| d s].
  - simpl in *. apply negb_true_iff in Hlast. rewrite Hlast. reflexivity.
  - rewrite IH by exact Hlast. reflexivity.
Qed.

Lemma rstrip_by_head_free (p q : ascii -> bool) (s : string) :
  head_free q s = true -> head_free q (rstrip_by p s) = true.
Proof.
  destruct s as [| c s]; simpl; [reflexivity |].
  intros Hc. destruct (negb (nonempty (rstrip_by p s)) && p c); [reflexivity | exact Hc].
Qed.

Lemma strip_chars_head_free (p : ascii -> bool) (s : string) :
  head_free p (strip_chars p s) = true.
Proof. apply rstrip_by_head_free, lstrip_by_head_free. Qed.

Lemma strip_chars_last_free (p : ascii -> bool) (s : string) :
  last_free p (strip_chars p s) = true.
Proof. apply rstrip_by_last_free. Qed.

Lemma strip_chars_fix (p : ascii -> bool) (s : string) :
  head_free p s = true -> last_free p s = true -> strip_chars p s = s.
Proof.
  intros Hh Hl. unfold strip_chars. rewrite lstrip_by_fix by exact Hh.
  apply rstrip_by_fix, Hl.
Qed.

Lemma strip_chars_idem (p : ascii -> bool) (s : string) :
  strip_chars p (strip_chars p s) = strip_chars p s.
Proof.
  apply strip_chars_fix; [apply strip_chars_head_free | apply strip_chars_last_free].
Qed.

Lemma strip_idem (s : string) : strip (strip s) = strip s.
Proof. exact (strip_chars_idem isspace s). Qed.

Lemma contains_lstrip_by (p : ascii -> bool) (c : ascii) (s : string) :
  contains c s = false -> contains c (lstrip_by p s) = false.
Proof.
  induction s as [| d s IH]; simpl; [reflexivity |].
  intros [Hd Hs]%orb_false_iff. destruct (p d); [exact (IH Hs) |].
  simpl. rewrite Hd, Hs. reflexivity.
Qed.

Lemma contains_rstrip_by (p : ascii -> bool) (c : ascii) (s : string) :
  contains c s = false -> contains c (rstrip_by p s) = false.
Proof.
  induction s as [| d s IH]; simpl; [reflexivity |].
  intros [Hd Hs]%orb_false_iff.
  destruct (negb (nonempty (rstrip_by p s)) && p d); [reflexivity |].
  simpl. rewrite Hd, (IH Hs). reflexivity.
Qed.

Lemma contains_strip_chars (p : ascii -> bool) (c : ascii) (s : string) :
  contains c s = false -> contains c (strip_chars p s) = false.
Proof. intros Hs. apply contains_rstrip_by, contains_lstrip_by, Hs. Qed.

(** ** More on [pick] *)

Lemma dict_get_nonblank (env : gmap string string) (k : string) :
  strip (dict_get env k "") <> "" ->
  exists raw, env !! k = Some raw /\ dict_get env k "" = raw.
Proof.
  unfold dict_get. destruct (env !! k) as [raw |]; simpl.
  - eauto.
  - intros Hne. exfalso. apply Hne. reflexivity.
Qed.

Lemma pick_Some_inv (env : gmap string string) (keys : list string)
    (d : option string) (v : string) :
  pick env keys d = Some v ->
  d = Some v \/
  exists k raw, In k keys /\ env !! k = Some raw /\ v = strip raw /\
                v <> "" /\ strip v = v.
Proof.
  induction keys as [| k keys IH]; simpl; [auto |].
  destruct (nonempty (strip (dict_get env k ""))) eqn:Hk.
  - intros [= <-]. right. apply nonempty_true in Hk.
    destruct (dict_get_nonblank env k Hk) as (raw & Hraw & Hget).
    exists k, raw. rewrite Hget in *.
    repeat split; [left; reflexivity | exact Hraw | exact Hk | apply strip_idem].
  - intros Hrest. destruct (IH Hrest) as [Hd | (k' & raw & Hin & Hrest')]; [auto |].
    right. exists k', raw. split; [right; exact Hin | exact Hrest'].
Qed.

(** X1. Whatever [pick] returns is either the default or the trimmed value
    of one of the listed keys, and then it is not empty and trimming it
    again changes nothing. *)
Theorem pick_result (env : gmap string string) (keys : list string)
    (d : option string) (v : string) :
  pick env keys d = Some v ->
  d = Some v \/
  exists k raw, In k keys /\ env !! k = Some raw /\ v = strip raw /\
                v <> "" /\ strip v = v.
Proof. apply pick_Some_inv. Qed.

(** X2. Looking up a concatenation of key lists is looking up the first
    list with the lookup of the second list as its default. *)
Theorem pick_app (env : gmap string string) (keys1 keys2 : list string)
    (d : option string) :
  pick env (keys1 ++ keys2) d = pick env keys1 (pick env keys2 d).
Proof.
  induction keys1 as [| k keys1 IH]; simpl; [reflexivity |].
  destruct (nonempty (strip (dict_get env k ""))); [reflexivity | exact IH].
Qed.

Lemma pick_ext (env env' : gmap string string) (keys : list string) (d : option string) :
  (forall k, In k keys -> env !! k = env' !! k) ->
  pick env keys d = pick env' keys d.
Proof.
  induction keys as [| k keys IH]; intros Hagree; simpl; [reflexivity |].
  unfold dict_get. rewrite <- (Hagree k) by (left; reflexivity).
  rewrite IH by (intros k' Hk'; apply Hagree; right; exact Hk'). reflexivity.
Qed.

(** X3. A key whose value is blank counts as a key that is not set. *)
Theorem pick_blank_is_unset (env : gmap string string) (k v : string)
    (keys : list string) (d : option string) :
  strip v = "" ->
  pick (<[k := v]> env) keys d = pick (delete k env) keys d.
Proof.
  intros Hblank. induction keys as [| k' keys IH]; simpl; [reflexivity |].
  rewrite IH. unfold dict_get. destruct (decide (k = k')) as [<- | Hne].
  - rewrite lookup_insert_eq, lookup_delete_eq. simpl. rewrite Hblank. reflexivity.
  - rewrite lookup_insert_ne, lookup_delete_ne by exact Hne. reflexivity.
Qed.

(** ** More on [parse_bool] *)

Ltac each_char c :=
  let b0 := fresh "b" in let b1 := fresh "b" in let b2 := fresh "b" in
  let b3 := fresh "b" in let b4 := fresh "b" in let b5 := fresh "b" in
  let b6 := fresh "b" in let b7 := fresh "b" in
  destruct c as [b0 b1 b2 b3 b4 b5 b6 b7];
  destruct b0, b1, b2, b3, b4, b5, b6, b7.

Lemma lower_char_idem (c : ascii) : lower_char (lower_char c) = lower_char c.
Proof. each_char c; vm_compute; reflexivity. Qed.

Lemma isspace_lower_char (c : ascii) : isspace (lower_char c) = isspace c.
Proof. each_char c; vm_compute; reflexivity. Qed.

Lemma lower_idem (s : string) : lower (lower s) = lower s.
Proof.
  induction s as [| c s IH]; simpl; [reflexivity |].
  rewrite lower_char_idem, IH. reflexivity.
Qed.

Lemma lower_lstrip (s : string) :
  lower (lstrip_by isspace s) = lstrip_by isspace (lower s).
Proof.
  induction s as [| c s IH]; simpl; [reflexivity |].
  rewrite isspace_lower_char. destruct (isspace c); [exact IH | reflexivity].
Qed.

Lemma lower_rstrip (s : string) :
  lower (rstrip_by isspace s) = rstrip_by isspace (lower s).
Proof.
  induction s as [| c s IH]; simpl; [reflexivity |].
  rewrite <- IH, isspace_lower_char, lower_nonempty.
  destruct (negb (nonempty (rstrip_by isspace s)) && isspace c); reflexivity.
Qed.

Lemma lower_strip (s : string) : lower (strip s) = strip (lower s).
Proof. unfold strip. rewrite lower_rstrip, lower_lstrip. reflexivity. Qed.

(** X4. [parse_bool] looks at its text only up to letter case and
    surrounding blanks. *)
Theorem parse_bool_case_and_blanks (raw : string) (d : bool) :
  parse_bool (Some (lower raw)) d = parse_bool (Some raw) d /\
  parse_bool (Some (strip raw)) d = parse_bool (Some raw) d.
Proof.
  unfold parse_bool. split.
  - rewrite <- lower_strip, lower_idem. reflexivity.
  - rewrite strip_idem. reflexivity.
Qed.

(** ** More on [urlparse] and [valid_url] *)

Lemma contains_app (c : ascii) (a b : string) :
  contains c (String.append a b) = contains c a || contains c b.
Proof.
  induction a as [| d a IH]; simpl; [reflexivity |].
  rewrite IH, orb_assoc. reflexivity.
Qed.

Lemma contains_remove_chars (p : ascii -> bool) (c : ascii) (s : string) :
  contains c s = false -> contains c (remove_chars p s) = false.
Proof.
  induction s as [| d s IH]; simpl; [reflexivity |].
  intros [Hd Hs]%orb_false_iff. destruct (p d); [exact (IH Hs) |].
  simpl. rewrite Hd, (IH Hs). reflexivity.
Qed.

Lemma partition_inv (sep : ascii) (s a b : string) :
  partition sep s = Some (a, b) ->
  s = String.append a (String sep b) /\ contains sep a = false.
Proof.
  revert a. induction s as [| c s IH]; simpl; [discriminate |].
  intros a. destruct (Ascii.eqb c sep) eqn:Hc.
  - intros [= <- <-]. apply Ascii.eqb_eq in Hc. subst c. split; reflexivity.
  - destruct (partition sep s) as [[a' b'] |]; [| discriminate].
    intros [= <- <-]. destruct (IH a' eq_refl) as [-> Ha'].
    simpl. rewrite Hc, Ha'. split; reflexivity.
Qed.

Lemma partition_None (sep : ascii) (s : string) :
  partition sep s = None <-> contains sep s = false.
Proof.
  induction s as [| c s IH]; simpl; [tauto |].
  destruct (Ascii.eqb c sep); simpl; [split; discriminate |].
  rewrite <- IH. destruct (partition sep s) as [[a b] |]; split; congruence.
Qed.

Lemma contains_span_until (p : ascii -> bool) (c : ascii) (s : string) :
  contains c s = false -> contains c (fst (span_until p s)) = false.
Proof.
  induction s as [| d s IH]; simpl; [reflexivity |].
  intros [Hd Hs]%orb_false_iff. destruct (p d); [reflexivity |].
  destruct (span_until p s) as [a b]. simpl in *. rewrite Hd, (IH Hs). reflexivity.
Qed.

Lemma split_scheme_contains (c : ascii) (core : string) :
  contains c core = false -> contains c (snd (split_scheme core)) = false.
Proof.
  intros Hcore. unfold split_scheme.
  destruct (partition ":" core) as [[[| c0 pre] post] |] eqn:Hp; try exact Hcore.
  destruct (isascii_alpha c0 && forall_chars scheme_char (String c0 pre));
    [| exact Hcore].
  apply partition_inv in Hp. destruct Hp as [Hp _]. rewrite Hp, contains_app in Hcore.
  simpl in *. apply orb_false_iff in Hcore. destruct Hcore as [_ Hpost].
  apply orb_false_iff in Hpost. tauto.
Qed.

Lemma forall_chars_app (q : ascii -> bool) (a b : string) :
  forall_chars q (String.append a b) = forall_chars q a && forall_chars q b.
Proof.
  induction a as [| d a IH]; simpl; [reflexivity |].
  rewrite IH, andb_assoc. reflexivity.
Qed.

Lemma forall_chars_lstrip_by (q p : ascii -> bool) (s : string) :
  forall_chars q s = true -> forall_chars q (lstrip_by p s) = true.
Proof.
  induction s as [| d s IH]; simpl; [reflexivity |].
  intros [Hd Hs]%andb_true_iff. destruct (p d); [exact (IH Hs) |].
  simpl. rewrite Hd, Hs. reflexivity.
Qed.

Lemma forall_chars_rstrip_by (q p : ascii -> bool) (s : string) :
  forall_chars q s = true -> forall_chars q (rstrip_by p s) = true.
Proof.
  induction s as [| d s IH]; simpl; [reflexivity |].
  intros [Hd Hs]%andb_true_iff.
  destruct (negb (nonempty (rstrip_by p s)) && p d); [reflexivity |].
  simpl. rewrite Hd, (IH Hs). reflexivity.
Qed.

Lemma forall_chars_remove_chars (q p : ascii -> bool) (s : string) :
  forall_chars q s = true -> forall_chars q (remove_chars p s) = true.
Proof.
  induction s as [| d s IH]; simpl; [reflexivity |].
  intros [Hd Hs]%andb_true_iff. destruct (p d); [exact (IH Hs) |].
  simpl. rewrite Hd, (IH Hs). reflexivity.
Qed.

Lemma forall_chars_span_until (q p : ascii -> bool) (s : string) :
  forall_chars q s = true -> forall_chars q (fst (span_until p s)) = true.
Proof.
  induction s as [| d s IH]; simpl; [reflexivity |].
  intros [Hd Hs]%andb_true_iff. destruct (p d); [reflexivity |].
  destruct (span_until p s) as [a b]. simpl in *. rewrite Hd, (IH Hs). reflexivity.
Qed.

Lemma forall_chars_split_scheme (q : ascii -> bool) (core : string) :
  forall_chars q core = true -> forall_chars q (snd (split_scheme core)) = true.
Proof.
  intros Hcore. unfold split_scheme.
  destruct (partition ":" core) as [[[| c0 pre] post] |] eqn:Hp; try exact Hcore.
  destruct (isascii_alpha c0 && forall_chars scheme_char (String c0 pre));
    [| exact Hcore].
  apply partition_inv in Hp. destruct Hp as [Hp _]. rewrite Hp, forall_chars_app in Hcore.
  simpl in *. apply andb_true_iff in Hcore. destruct Hcore as [_ Hpost].
  apply andb_true_iff in Hpost. tauto.
Qed.

Lemma netloc_of_eq (url : string) :
  netloc_of url =
    match url with
    | String a (String b rest) =>
        if Ascii.eqb a "/" && Ascii.eqb b "/" then fst (_splitnetloc rest) else ""
    | _ => ""
    end.
Proof.
  destruct url as [| a [| b rest]]; try (each_char a; reflexivity).
  - reflexivity.
  - each_char a; try reflexivity. each_char b; reflexivity.
Qed.

Lemma forall_chars_netloc_of (q : ascii -> bool) (url : string) :
  forall_chars q url = true -> forall_chars q (netloc_of url) = true.
Proof.
  rewrite netloc_of_eq. destruct url as [| a [| b rest]]; try reflexivity.
  destruct (Ascii.eqb a "/" && Ascii.eqb b "/"); [| reflexivity].
  simpl. intros [_ [_ Hrest]%andb_true_iff]%andb_true_iff.
  apply forall_chars_span_until, Hrest.
Qed.

Section MoreUrl.

Variable h : Interpreter.

Lemma split_netloc_eq (url : string) :
  split_netloc h url =
    match url with
    | String a (String b rest) =>
        if Ascii.eqb a "/" && Ascii.eqb b "/" then after_slashes h rest else ok_res ("", url)
    | _ => ok_res ("", url)
    end.
Proof.
  destruct url as [| a [| b rest]]; try (each_char a; reflexivity).
  - reflexivity.
  - each_char a; try reflexivity. each_char b; reflexivity.
Qed.

(** The netloc that [split_netloc] returns is the netloc of the
    decomposition. *)
Lemma split_netloc_returns (url nl url' : string) :
  split_netloc h url = inr (nl, url') -> nl = netloc_of url.
Proof.
  rewrite split_netloc_eq, netloc_of_eq.
  destruct url as [| a [| b rest]]; try (intros [= <- _]; reflexivity).
  destruct (Ascii.eqb a "/" && Ascii.eqb b "/"); [| intros [= <- _]; reflexivity].
  unfold after_slashes, res_bind, raise, ok_res.
  destruct (_splitnetloc rest) as [n u]. simpl fst.
  destruct ((contains "[" n && negb (contains "]" n))
            || (contains "]" n && negb (contains "[" n))); [discriminate |].
  destruct (contains "[" n && contains "]" n).
  - destruct (_check_bracketed_netloc h n) as [e | []]; [discriminate |].
    intros [= <- _]. reflexivity.
  - intros [= <- _]. reflexivity.
Qed.

Lemma _checknetloc_ascii (nl : string) :
  isascii nl = true -> _checknetloc h nl = inr tt.
Proof. intros Hnl. unfold _checknetloc. rewrite Hnl, orb_true_r. reflexivity. Qed.

Lemma split_netloc_without_brackets (url : string) :
  contains "[" url = false -> contains "]" url = false ->
  exists nl url', split_netloc h url = inr (nl, url').
Proof.
  intros Ho Hc. rewrite split_netloc_eq.
  destruct url as [| a [| b rest]]; try (eexists _, _; reflexivity).
  destruct (Ascii.eqb a "/" && Ascii.eqb b "/"); [| eexists _, _; reflexivity].
  simpl in Ho, Hc. apply orb_false_iff in Ho, Hc.
  destruct Ho as [_ Ho], Hc as [_ Hc]. apply orb_false_iff in Ho, Hc.
  destruct Ho as [_ Ho], Hc as [_ Hc].
  unfold after_slashes, _splitnetloc.
  pose proof (contains_span_until netloc_delim "[" rest Ho) as Ho'.
  pose proof (contains_span_until netloc_delim "]" rest Hc) as Hc'.
  destruct (span_until netloc_delim rest) as [nl url']. simpl in Ho', Hc'.
  rewrite Ho', Hc'. simpl. eauto.
Qed.

(** [urlparse] returns the scheme and the netloc of the two steps, and
    raises what the netloc step and [_checknetloc] raise. *)
Lemma urlparse_steps (raw : string) :
  let core := remove_chars unsafe_url_byte (lstrip_by c0_control_or_space raw) in
  match split_netloc h (snd (split_scheme core)) with
  | inl e => urlparse h raw = inl e
  | inr (nl, _) =>
      match _checknetloc h nl with
      | inl e => urlparse h raw = inl e
      | inr _ =>
          exists p, urlparse h raw = inr p /\ scheme p = fst (split_scheme core) /\
                    netloc p = nl
      end
  end.
Proof.
  intros core. unfold urlparse, urlsplit. fold core.
  destruct (split_scheme core) as [sch url]. simpl fst. simpl snd.
  destruct (split_netloc h url) as [e | [nl url']]; [reflexivity |].
  unfold res_bind, ok_res. cbn beta iota.
  repeat match goal with
         | |- context [match ?x with pair _ _ => _ end] => destruct x
         end.
  destruct (_checknetloc h nl) as [e | u]; [reflexivity |].
  cbn beta iota.
  repeat match goal with
         | |- context [match ?x with pair _ _ => _ end] => destruct x
         end.
  eexists. split; [reflexivity | split; reflexivity].
Qed.

(** Whenever [valid_url] returns, it returns whether the scheme and the
    netloc of the decomposition are both non-empty. *)
Lemma valid_url_returns_decomposition (raw : string) :
  (exists e, valid_url h raw = inl e) \/
  valid_url h raw =
    inr (nonempty (fst (scheme_and_netloc raw)) && nonempty (snd (scheme_and_netloc raw))).
Proof.
  pose proof (urlparse_steps raw) as Hsteps. cbv zeta in Hsteps.
  unfold scheme_and_netloc. cbv zeta.
  destruct (split_scheme (remove_chars unsafe_url_byte (lstrip_by c0_control_or_space raw)))
    as [sch url].
  cbn [fst snd] in *.
  destruct (split_netloc h url) as [e | [nl url']] eqn:Hn.
  { left. exists e. unfold valid_url. rewrite Hsteps. reflexivity. }
  destruct (_checknetloc h nl) as [e | u].
  { left. exists e. unfold valid_url. rewrite Hsteps. reflexivity. }
  destruct Hsteps as (p & Hp & Hsch & Hnl). right.
  rewrite <- (split_netloc_returns url nl url' Hn).
  unfold valid_url. rewrite Hp. unfold res_bind, ok_res. rewrite Hsch, Hnl.
  destruct (nonempty sch) eqn:Hs; cbn iota; rewrite ?Hs; reflexivity.
Qed.

(** C9. The text ["http://[::1"] decomposes into the scheme ["http"] and the
    netloc ["[::1"], both non-empty, and yet [valid_url] does not hold of it
    nor fail of it: the [ValueError] of [urlparse] leaves it.  On every
    text on which [valid_url] returns, it returns whether the scheme and
    the netloc of the decomposition are both non-empty; ["not-a-url"]
    decomposes into neither and is invalid. *)
Theorem valid_url_raises_with_scheme_and_netloc :
  scheme_and_netloc "http://[::1" = ("http", "[::1") /\
  valid_url h "http://[::1" = inl (ValueError "Invalid IPv6 URL") /\
  (forall raw,
     (exists e, valid_url h raw = inl e) \/
     valid_url h raw =
       inr (nonempty (fst (scheme_and_netloc raw))
            && nonempty (snd (scheme_and_netloc raw)))) /\
  scheme_and_netloc "not-a-url" = ("", "") /\
  valid_url h "not-a-url" = inr false.
Proof.
  split; [reflexivity |].
  split; [vm_compute; reflexivity |].
  split; [exact valid_url_returns_decomposition |].
  split; reflexivity.
Qed.

(** No scheme allow-list: every well-formed scheme followed by [://] and a
    non-empty plain ASCII host is a valid URL. *)
Lemma valid_url_any_scheme (sch host : string) :
  wellformed_scheme sch = true ->
  host <> "" ->
  isascii host = true ->
  forall_chars plain_host_char host = true ->
  valid_url h (String.append sch (String.append "://" host)) = inr true.
Proof.
  intros Hwf Hne Hascii Hhost.
  assert (Hsch : exists c0 pre, sch = String c0 pre /\ isascii_alpha c0 = true /\
                                forall_chars scheme_char sch = true).
  { unfold wellformed_scheme in Hwf. destruct sch as [| c0 pre]; [discriminate |].
    apply andb_true_iff in Hwf. eauto. }
  destruct Hsch as (c0 & pre & Hshape & Halpha & Hchars).
  assert (Hcore : remove_chars unsafe_url_byte
                    (lstrip_by c0_control_or_space (String.append sch (String.append "://" host)))
                  = String.append sch (String ":" (String "/" (String "/" host)))).
  { rewrite lstrip_by_keep by (rewrite Hshape; simpl; apply alpha_not_c0, Halpha).
    rewrite remove_chars_app.
    rewrite (remove_chars_id unsafe_url_byte scheme_char sch) by
      (assumption || (intros c Hc; apply scheme_char_plain, Hc)).
    rewrite (remove_chars_app _ "://" host).
    rewrite (remove_chars_id unsafe_url_byte plain_host_char host) by
      (assumption || (intros c Hc; apply plain_host_char_inv, Hc)).
    reflexivity. }
  pose proof (urlparse_steps (String.append sch (String.append "://" host))) as Hsteps.
  cbv zeta in Hsteps.
  rewrite Hcore, (split_scheme_wellformed sch _ Hwf) in Hsteps.
  simpl fst in Hsteps. simpl snd in Hsteps.
  rewrite (split_netloc_plain h host Hhost), (_checknetloc_ascii host Hascii) in Hsteps.
  destruct Hsteps as (p & Hp & Hs & Hn). unfold valid_url. rewrite Hp. simpl.
  rewrite Hs, Hn, lower_nonempty, Hshape. simpl.
  apply nonempty_true in Hne. rewrite Hne. reflexivity.
Qed.

Lemma valid_url_ascii_without_brackets (raw : string) :
  isascii raw = true -> contains "[" raw = false -> contains "]" raw = false ->
  exists b, valid_url h raw = inr b.
Proof.
  intros Ha Ho Hc.
  pose proof (urlparse_steps raw) as Hsteps. cbv zeta in Hsteps.
  set (url := snd (split_scheme (remove_chars unsafe_url_byte
                                   (lstrip_by c0_control_or_space raw)))) in *.
  assert (Hurl : isascii url = true).
  { apply forall_chars_split_scheme, forall_chars_remove_chars, forall_chars_lstrip_by, Ha. }
  destruct (split_netloc_without_brackets url) as (nl & url' & Hn).
  - apply split_scheme_contains, contains_remove_chars, contains_lstrip_by, Ho.
  - apply split_scheme_contains, contains_remove_chars, contains_lstrip_by, Hc.
  - rewrite Hn in Hsteps.
    rewrite (_checknetloc_ascii nl) in Hsteps.
    + destruct Hsteps as (p & Hp & _). unfold valid_url. rewrite Hp. simpl. eauto.
    + rewrite (split_netloc_returns url nl url' Hn).
      apply forall_chars_netloc_of, Hurl.
Qed.

(** X5. [valid_url] raises only on text that holds a square bracket or a
    character outside ASCII: on ASCII text without a bracket it always
    answers. *)
Theorem valid_url_answers_on_ascii_without_brackets (raw : string) :
  isascii raw = true -> contains "[" raw = false -> contains "]" raw = false ->
  exists b, valid_url h raw = inr b.
Proof. apply valid_url_ascii_without_brackets. Qed.

End MoreUrl.

(** ** More on [run_checks] *)

Lemma aliases_in_all (keys : list string) (k : string) :
  In keys ALIASES -> In k keys -> In k ALL_KEYS.
Proof.
  intros Hkeys Hk. unfold ALL_KEYS. apply in_concat. exists keys. split; assumption.
Qed.

Ltac alias_list := unfold ALIASES; simpl; tauto.

Section MoreChecks.

Variable h : Interpreter.

Lemma run_checks_ext (env env' : gmap string string) :
  (forall k, In k ALL_KEYS -> env !! k = env' !! k) ->
  run_checks h env = run_checks h env'.
Proof.
  intros Hagree.
  assert (Hpick : forall keys d, In keys ALIASES -> pick env keys d = pick env' keys d).
  { intros keys d Hkeys. apply pick_ext. intros k Hk.
    apply Hagree, (aliases_in_all keys); assumption. }
  rewrite !run_checks_unfold.
  unfold expert_credentials, info_credentials, report_results, report_errors,
    expert_mode, info_mode, monitoring_poll, monitoring_enabled.
  rewrite (Hpick EXPERT_MODE_KEYS), (Hpick INFO_MODE_KEYS), (Hpick EXPERT_API_KEY_KEYS),
    (Hpick EXPERT_ENDPOINT_KEYS), (Hpick INFO_API_KEY_KEYS), (Hpick INFO_ENDPOINT_KEYS),
    (Hpick AUTO_EVALUATE_KEYS), (Hpick POLL_INTERVAL_KEYS) by alias_list.
  reflexivity.
Qed.

(** X7. [run_checks] reads the sixteen alias keys and nothing else: two
    maps that agree on them give the same outcome, exception included. *)
Theorem run_checks_reads_only_its_keys (env env' : gmap string string) :
  (forall k, In k ALL_KEYS -> env !! k = env' !! k) ->
  run_checks h env = run_checks h env'.
Proof. apply run_checks_ext. Qed.

(** X8. The auto-evaluate setting decides no check: changing only its two
    keys leaves the errors, the names, the [ok] flags and the first four
    results as they were. *)
Theorem auto_evaluate_decides_nothing (env env' : gmap string string) rs es :
  (forall k, ~ In k AUTO_EVALUATE_KEYS -> env !! k = env' !! k) ->
  run_checks h env = inr (rs, es) ->
  exists rs',
    run_checks h env' = inr (rs', es) /\
    map name rs' = map name rs /\ map ok rs' = map ok rs /\
    firstn 4 rs' = firstn 4 rs.
Proof.
  intros Hagree Hrun.
  assert (Hpick : forall keys d,
             (forall k, In k keys -> ~ In k AUTO_EVALUATE_KEYS) ->
             pick env keys d = pick env' keys d).
  { intros keys d Hkeys. apply pick_ext. intros k Hk. apply Hagree, Hkeys, Hk. }
  assert (Hem : expert_mode env = expert_mode env').
  { unfold expert_mode. rewrite (Hpick EXPERT_MODE_KEYS); [reflexivity |].
    intros k Hk Hauto. simpl in Hk, Hauto. intuition (subst; discriminate). }
  assert (Him : info_mode env = info_mode env').
  { unfold info_mode. rewrite (Hpick INFO_MODE_KEYS); [reflexivity |].
    intros k Hk Hauto. simpl in Hk, Hauto. intuition (subst; discriminate). }
  assert (Hpoll : monitoring_poll env = monitoring_poll env').
  { unfold monitoring_poll. rewrite (Hpick POLL_INTERVAL_KEYS); [reflexivity |].
    intros k Hk Hauto. simpl in Hk, Hauto. intuition (subst; discriminate). }
  assert (H3 : expert_credentials h env = expert_credentials h env').
  { unfold expert_credentials. rewrite Hem.
    rewrite (Hpick EXPERT_API_KEY_KEYS), (Hpick EXPERT_ENDPOINT_KEYS); [reflexivity | |];
      intros k Hk Hauto; simpl in Hk, Hauto; intuition (subst; discriminate). }
  assert (H4 : info_credentials h env = info_credentials h env').
  { unfold info_credentials. rewrite Him.
    rewrite (Hpick INFO_API_KEY_KEYS), (Hpick INFO_ENDPOINT_KEYS); [reflexivity | |];
      intros k Hk Hauto; simpl in Hk, Hauto; intuition (subst; discriminate). }
  apply run_checks_returns in Hrun. destruct Hrun as (ok3 & ok4 & Hc3 & Hc4 & -> & ->).
  exists (report_results env' ok3 ok4). split.
  - apply run_checks_returns. exists ok3, ok4.
    rewrite <- H3, <- H4. repeat split; try assumption.
    unfold report_errors. rewrite Hem, Him, Hpoll. reflexivity.
  - unfold report_results. rewrite Hem, Him, Hpoll. repeat split.
Qed.

(** X9. When [run_checks] returns: in live mode the credentials result is
    ok exactly when key and endpoint resolve and [valid_url] accepts the
    endpoint, and its error is listed exactly when it is not ok; in any
    other mode, valid or not, the result passes as stub mode without an
    error.  The expert and the info check behave alike. *)
Theorem live_credentials_on_return (env : gmap string string) rs es :
  run_checks h env = inr (rs, es) ->
  (exists r,
     rs !! 2%nat = Some r /\ name r = "expert.live_credentials" /\
     (In EXPERT_CREDENTIALS_ERROR es <-> ok r = false) /\
     (expert_mode env = "live" ->
        detail r = "apiKey+endpoint required in live mode" /\
        (ok r = true <->
         exists k e, pick env EXPERT_API_KEY_KEYS None = Some k /\
                     pick env EXPERT_ENDPOINT_KEYS None = Some e /\
                     valid_url h e = inr true)) /\
     (expert_mode env <> "live" -> ok r = true /\ detail r = "stub mode")) /\
  (exists r,
     rs !! 3%nat = Some r /\ name r = "info.live_credentials" /\
     (In INFO_CREDENTIALS_ERROR es <-> ok r = false) /\
     (info_mode env = "live" ->
        detail r = "apiKey+endpoint required in live mode" /\
        (ok r = true <->
         exists k e, pick env INFO_API_KEY_KEYS None = Some k /\
                     pick env INFO_ENDPOINT_KEYS None = Some e /\
                     valid_url h e = inr true)) /\
     (info_mode env <> "live" -> ok r = true /\ detail r = "stub mode")).
Proof.
  intros Hrun.
  assert (Hshape : forall mode key endpoint ok_,
             (forall k, key = Some k -> k <> "") ->
             (forall e, endpoint = Some e -> e <> "") ->
             credentials h mode key endpoint = inr ok_ ->
             (mode = "live" ->
                credentials_detail mode = "apiKey+endpoint required in live mode" /\
                (ok_ = true <->
                 exists k e, key = Some k /\ endpoint = Some e /\ valid_url h e = inr true)) /\
             (mode <> "live" -> ok_ = true /\ credentials_detail mode = "stub mode")).
  { intros mode key endpoint ok_ Hkey Hend Hcred. unfold credentials, credentials_detail in *.
    destruct (String.eqb_spec mode "live") as [-> | Hne].
    - split; [| congruence]. intros _. split; [reflexivity |].
      split.
      + intros ->. apply live_ok_true in Hcred.
        destruct Hcred as (k & e & -> & _ & -> & _ & Hv). eauto.
      + intros (k & e & Hk & He & Hv).
        assert (Htrue : live_ok h key endpoint = inr true).
        { apply live_ok_true. exists k, e. repeat split; auto. }
        congruence.
    - split; [congruence |]. intros _. injection Hcred as <-. split; reflexivity. }
  destruct (expert_credentials_recorded h env rs es Hrun) as (ok3 & Hc3 & Hr3 & He3).
  destruct (info_credentials_recorded h env rs es Hrun) as (ok4 & Hc4 & Hr4 & He4).
  split; eexists; (split; [eassumption |]); (split; [reflexivity |]);
    (split; [assumption |]); cbn [ok detail].
  - refine (Hshape _ _ _ _ _ _ Hc3); intros ?; apply pick_Some_nonempty.
  - refine (Hshape _ _ _ _ _ _ Hc4); intros ?; apply pick_Some_nonempty.
Qed.

Lemma credentials_answer (mode : string) (key endpoint : option string) :
  (forall e, endpoint = Some e ->
             isascii e = true /\ contains "[" e = false /\ contains "]" e = false) ->
  exists b, credentials h mode key endpoint = inr b.
Proof.
  intros Hend. unfold credentials, live_ok, ok_res.
  destruct (String.eqb mode "live"); [| eauto].
  destruct (truthy key); [| eauto].
  destruct endpoint as [e |]; [| eauto].
  destruct (nonempty e); [| eauto].
  destruct (Hend e eq_refl) as (Ha & Ho & Hc).
  apply valid_url_ascii_without_brackets; assumption.
Qed.

Lemma picked_ascii_without_brackets (env : gmap string string) (keys : list string)
    (e : string) :
  (forall k v, In k keys -> env !! k = Some v ->
               isascii v = true /\ contains "[" v = false /\ contains "]" v = false) ->
  pick env keys None = Some e ->
  isascii e = true /\ contains "[" e = false /\ contains "]" e = false.
Proof.
  intros Hkeys Hpick.
  destruct (pick_Some_inv env keys None e Hpick) as [| (k & raw & Hin & Hraw & -> & _)];
    [discriminate |].
  destruct (Hkeys k raw Hin Hraw) as (Ha & Ho & Hc).
  split; [| split; apply contains_strip_chars; assumption].
  apply forall_chars_rstrip_by, forall_chars_lstrip_by, Ha.
Qed.

(** X10. When every value of the four endpoint keys is ASCII text without a
    square bracket, [run_checks] returns: no exception can leave it. *)
Theorem run_checks_returns_on_ascii_without_brackets (env : gmap string string) :
  (forall k v, In k (EXPERT_ENDPOINT_KEYS ++ INFO_ENDPOINT_KEYS) -> env !! k = Some v ->
               isascii v = true /\ contains "[" v = false /\ contains "]" v = false) ->
  exists rs es, run_checks h env = inr (rs, es).
Proof.
  intros Hkeys.
  destruct (credentials_answer (expert_mode env) (pick env EXPERT_API_KEY_KEYS None)
              (pick env EXPERT_ENDPOINT_KEYS None)) as [ok3 H3].
  { intros e. apply picked_ascii_without_brackets. intros k v Hk. apply Hkeys.
    apply in_or_app. left. exact Hk. }
  destruct (credentials_answer (info_mode env) (pick env INFO_API_KEY_KEYS None)
              (pick env INFO_ENDPOINT_KEYS None)) as [ok4 H4].
  { intros e. apply picked_ascii_without_brackets. intros k v Hk. apply Hkeys.
    apply in_or_app. right. exact Hk. }
  eexists _, _. apply run_checks_returns. exists ok3, ok4. repeat split; assumption.
Qed.

End MoreChecks.

(** ** [parse_env_file] *)

Lemma env_line_Some_inv (l k v : string) :
  env_line l = Some (k, v) ->
  exists a b, contains "=" a = false /\ k = strip a /\ k <> "" /\ v = unquote (strip b).
Proof.
  unfold env_line.
  destruct (negb (nonempty (strip l)) || startswith_char "#" (strip l)); [discriminate |].
  match goal with
  | |- context [partition "=" ?line] => destruct (partition "=" line) as [[a b] |] eqn:Hp
  end; [| discriminate].
  destruct (nonempty (strip a)) eqn:Hk; [| discriminate].
  intros [= <- <-]. exists a, b. apply partition_inv in Hp. destruct Hp as [_ Ha].
  repeat split; [exact Ha | apply nonempty_true, Hk].
Qed.

Lemma env_line_kept (l k v : string) :
  env_line l = Some (k, v) ->
  kept_key k = true /\ head_free is_dquote v = true /\ last_free is_dquote v = true.
Proof.
  intros (a & b & Ha & -> & Hne & ->)%env_line_Some_inv.
  split; [| split].
  - unfold kept_key. apply nonempty_true in Hne. rewrite Hne.
    change (strip a) with (strip_chars isspace a).
    rewrite strip_chars_head_free, strip_chars_last_free, contains_strip_chars by exact Ha.
    reflexivity.
  - apply strip_chars_head_free.
  - apply strip_chars_last_free.
Qed.

Lemma load_lines_snoc (loaded : gmap string string) (ls : list string) (l : string) :
  load_lines loaded (ls ++ [l]) =
    match env_line l with
    | Some (k, v) => <[k := v]> (load_lines loaded ls)
    | None => load_lines loaded ls
    end.
Proof.
  revert loaded. induction ls as [| l0 ls IH]; intros loaded; simpl.
  - destruct (env_line l) as [[k v] |]; reflexivity.
  - destruct (env_line l0) as [[k0 v0] |]; apply IH.
Qed.

Lemma load_lines_from_lines (P : string -> string -> Prop) (ls : list string) :
  (forall l k v, env_line l = Some (k, v) -> P k v) ->
  forall k v, load_lines ∅ ls !! k = Some v -> P k v.
Proof.
  intros Hline. induction ls as [| l ls IH] using rev_ind; intros k v.
  - simpl. rewrite lookup_empty. discriminate.
  - rewrite load_lines_snoc. destruct (env_line l) as [[k0 v0] |] eqn:Hl; [| apply IH].
    destruct (decide (k0 = k)) as [-> | Hne].
    + rewrite lookup_insert_eq. intros [= <-]. exact (Hline l k v0 Hl).
    + rewrite lookup_insert_ne by exact Hne. apply IH.
Qed.

(** X11. Every key that [parse_env_file] loads is not empty, has no blank
    at either end and holds no [=]; every value it loads neither starts nor
    ends with a double quote. *)
Theorem loaded_keys_and_values (file : option string) (k v : string) :
  parse_env_file file !! k = Some v ->
  kept_key k = true /\ head_free is_dquote v = true /\ last_free is_dquote v = true.
Proof.
  destruct file as [text |]; simpl.
  - unfold parse_env_text. revert k v. apply load_lines_from_lines. exact env_line_kept.
  - rewrite lookup_empty. discriminate.
Qed.

(** X12. Later lines override earlier ones: the value loaded for a key is
    the value of the last line that assigns the key, and a key is loaded
    only when some line assigns it. *)
Theorem later_lines_override (text k v : string) :
  parse_env_text text !! k = Some v <->
  exists before l after,
    splitlines text = before ++ l :: after /\
    env_line l = Some (k, v) /\
    forall l' v', In l' after -> env_line l' <> Some (k, v').
Proof.
  unfold parse_env_text. generalize (splitlines text) as ls.
  induction ls as [| l ls IH] using rev_ind.
  - simpl. rewrite lookup_empty. split; [discriminate |].
    intros (before & l & after & Heq & _). destruct before; discriminate.
  - rewrite load_lines_snoc.
    assert (Hsplit : forall before l0 after,
               ls ++ [l] = before ++ l0 :: after ->
               (after = [] /\ before = ls /\ l0 = l) \/
               (exists after', after = after' ++ [l] /\ ls = before ++ l0 :: after')).
    { intros before l0 after Heq.
      induction after as [| l1 after' _] using rev_ind.
      - apply (app_inj_tail ls before l l0) in Heq. destruct Heq as [-> ->].
        left. repeat split.
      - right. exists after'.
        rewrite app_comm_cons, app_assoc in Heq.
        apply app_inj_tail in Heq. destruct Heq as [-> ->]. split; reflexivity. }
    destruct (env_line l) as [[k0 v0] |] eqn:Hl.
    + destruct (decide (k0 = k)) as [-> | Hne].
      * rewrite lookup_insert_eq. split.
        -- intros [= <-]. exists ls, l, []. repeat split; [exact Hl |]. intros ? ? [].
        -- intros (before & l0 & after & Heq & Hl0 & Hafter).
           destruct (Hsplit _ _ _ Heq) as [(-> & -> & ->) | (after' & -> & _)].
           ++ congruence.
           ++ exfalso. apply (Hafter l v0); [apply in_or_app; right; left; reflexivity | exact Hl].
      * rewrite lookup_insert_ne by exact Hne. rewrite IH. split.
        -- intros (before & l0 & after & -> & Hl0 & Hafter).
           exists before, l0, (after ++ [l]). split; [| split; [exact Hl0 |]].
           ++ rewrite <- app_assoc. reflexivity.
           ++ intros l' v' [Hin | [<- | []]]%in_app_or; [exact (Hafter l' v' Hin) |].
              rewrite Hl. congruence.
        -- intros (before & l0 & after & Heq & Hl0 & Hafter).
           destruct (Hsplit _ _ _ Heq) as [(-> & -> & ->) | (after' & -> & ->)].
           ++ congruence.
           ++ exists before, l0, after'. repeat split; [exact Hl0 |].
              intros l' v' Hin. apply Hafter, in_or_app. left. exact Hin.
    + rewrite IH. split.
      * intros (before & l0 & after & -> & Hl0 & Hafter).
        exists before, l0, (after ++ [l]). split; [| split; [exact Hl0 |]].
        -- rewrite <- app_assoc. reflexivity.
        -- intros l' v' [Hin | [<- | []]]%in_app_or; [exact (Hafter l' v' Hin) |].
           rewrite Hl. discriminate.
      * intros (before & l0 & after & Heq & Hl0 & Hafter).
        destruct (Hsplit _ _ _ Heq) as [(-> & -> & ->) | (after' & -> & ->)].
        -- congruence.
        -- exists before, l0, after'. repeat split; [exact Hl0 |].
           intros l' v' Hin. apply Hafter, in_or_app. left. exact Hin.
Qed.

Lemma contains_drop_chars (c : ascii) (n : nat) (s : string) :
  contains c s = false -> contains c (drop_chars n s) = false.
Proof.
  revert s. induction n as [| n IH]; intros s; [trivial |].
  destruct s as [| d s]; simpl; [reflexivity |].
  intros [_ Hs]%orb_false_iff. apply IH, Hs.
Qed.

Lemma env_line_without_equals (l : string) :
  contains "=" l = false -> env_line l = None.
Proof.
  intros Hl. unfold env_line.
  destruct (negb (nonempty (strip l)) || startswith_char "#" (strip l)); [reflexivity |].
  assert (Hline : contains "=" (strip l) = false) by (apply contains_strip_chars, Hl).
  destruct (String.prefix "export " (strip l)).
  - rewrite (proj2 (partition_None "=" _)); [reflexivity |].
    apply contains_strip_chars, contains_drop_chars, Hline.
  - rewrite (proj2 (partition_None "=" _)); [reflexivity | exact Hline].
Qed.

Lemma contains_splitlines (c : ascii) (s : string) (after_cr : bool) :
  contains c s = false ->
  Forall (fun l => contains c l = false) (splitlines_from s after_cr).
Proof.
  revert after_cr. induction s as [| d s IH]; intros after_cr; simpl; [constructor |].
  intros [Hd Hs]%orb_false_iff.
  destruct (after_cr && is_lf d); [apply IH, Hs |].
  destruct (linebreak d); [constructor; [reflexivity | apply IH, Hs] |].
  pose proof (IH false Hs) as Hrest.
  destruct (splitlines_from s false) as [| line lines].
  - constructor; [simpl; rewrite Hd; reflexivity | constructor].
  - inversion Hrest as [| ? ? Hline Hlines]; subst.
    constructor; [simpl; rewrite Hd, Hline; reflexivity | exact Hlines].
Qed.

(** X13. A text without any [=] loads nothing, whatever else it holds. *)
Theorem text_without_equals_loads_nothing (text : string) :
  contains "=" text = false -> parse_env_text text = ∅.
Proof.
  intros Htext. unfold parse_env_text, splitlines.
  pose proof (contains_splitlines "=" text false Htext) as Hlines.
  induction Hlines as [| l ls Hl _ IH]; simpl; [reflexivity |].
  rewrite (env_line_without_equals l Hl). exact IH.
Qed.

(** ** Lines that assign *)

Lemma append_assoc (a b c : string) :
  String.append (String.append a b) c = String.append a (String.append b c).
Proof.
  induction a as [| d a IH]; [reflexivity |].
  change (String d (String.append (String.append a b) c)
          = String d (String.append a (String.append b c))).
  rewrite IH. reflexivity.
Qed.

Lemma lstrip_by_app_blank (p : ascii -> bool) (w x : string) :
  forall_chars p w = true -> lstrip_by p (String.append w x) = lstrip_by p x.
Proof.
  induction w as [| c w IH]; simpl; [reflexivity |].
  intros [Hc Hw]%andb_true_iff. rewrite Hc. exact (IH Hw).
Qed.

Lemma lstrip_by_all (p : ascii -> bool) (s : string) :
  forall_chars p s = true -> lstrip_by p s = "".
Proof.
  induction s as [| c s IH]; simpl; [reflexivity |].
  intros [Hc Hs]%andb_true_iff. rewrite Hc. exact (IH Hs).
Qed.

Lemma rstrip_by_cons (p : ascii -> bool) (c : ascii) (s : string) :
  rstrip_by p (String c s) =
    if negb (nonempty (rstrip_by p s)) && p c then "" else String c (rstrip_by p s).
Proof. reflexivity. Qed.

Lemma rstrip_by_app_keep (p : ascii -> bool) (a b : string) :
  a <> "" -> last_free p a = true ->
  rstrip_by p (String.append a b) = String.append a (rstrip_by p b).
Proof.
  induction a as [| c a IH]; [congruence |]. intros _ Hlast.
  destruct a as [| d a].
  - simpl in *. apply negb_true_iff in Hlast. rewrite Hlast, andb_false_r. reflexivity.
  - change (rstrip_by p (String c (String.append (String d a) b))
            = String c (String.append (String d a) (rstrip_by p b))).
    rewrite rstrip_by_cons, (IH ltac:(discriminate) Hlast). reflexivity.
Qed.

Lemma last_free_snoc (p : ascii -> bool) (a : string) (d : ascii) :
  last_free p (String.append a (String d "")) = negb (p d).
Proof.
  induction a as [| c a IH]; [reflexivity |].
  destruct a as [| c' a]; [reflexivity | exact IH].
Qed.

Lemma rstrip_by_snoc (p : ascii -> bool) (s : string) (d : ascii) :
  p d = true -> rstrip_by p (String.append s (String d "")) = rstrip_by p s.
Proof.
  intros Hd. induction s as [| c s IH]; simpl; [rewrite Hd; reflexivity |].
  rewrite IH. reflexivity.
Qed.

Lemma lstrip_rstrip_comm (p : ascii -> bool) (s : string) :
  lstrip_by p (rstrip_by p s) = rstrip_by p (lstrip_by p s).
Proof.
  induction s as [| c s IH]; [reflexivity |].
  simpl. destruct (p c) eqn:Hc.
  - destruct (rstrip_by p s) as [| d r] eqn:Hr; simpl.
    + apply rstrip_by_nil in Hr. rewrite (lstrip_by_all p s Hr). reflexivity.
    + rewrite Hc. rewrite <- IH. reflexivity.
  - rewrite andb_false_r. simpl. rewrite Hc, andb_false_r. reflexivity.
Qed.

Lemma strip_chars_rstrip (p : ascii -> bool) (s : string) :
  strip_chars p (rstrip_by p s) = strip_chars p s.
Proof.
  unfold strip_chars. rewrite lstrip_rstrip_comm.
  apply rstrip_by_fix, rstrip_by_last_free.
Qed.

Lemma prefix_app_self (p x : string) : String.prefix p (String.append p x) = true.
Proof.
  induction p as [| c p IH]; [destruct x; reflexivity |].
  change (String.prefix (String c p) (String c (String.append p x)) = true).
  simpl. destruct (ascii_dec c c); [exact IH | congruence].
Qed.

Lemma drop_chars_app (p x : string) :
  drop_chars (String.length p) (String.append p x) = x.
Proof. induction p as [| c p IH]; simpl; [reflexivity | exact IH]. Qed.

Lemma prefix_before_equals (p k r : string) :
  forall_chars (fun c => negb (Ascii.eqb c "=")) p = true ->
  String.prefix p k = false ->
  String.prefix p (String.append k (String "=" r)) = false.
Proof.
  revert k. induction p as [| a p IH]; intros k Hp Hk.
  - destruct k; discriminate.
  - simpl in Hp. apply andb_true_iff in Hp. destruct Hp as [Ha Hp].
    destruct k as [| b k]; simpl.
    + destruct (ascii_dec a "=") as [-> | _]; [discriminate | reflexivity].
    + simpl in Hk. destruct (ascii_dec a b); [exact (IH k Hp Hk) | reflexivity].
Qed.

Lemma strip_assignment_line (w K rhs : string) :
  forall_chars isspace w = true ->
  nonempty K = true -> head_free isspace K = true ->
  strip (String.append w (String.append K (String "=" rhs)))
  = String.append K (String "=" (rstrip_by isspace rhs)).
Proof.
  intros Hw Hne Hhead. unfold strip.
  rewrite lstrip_by_app_blank by exact Hw.
  rewrite lstrip_by_fix by (destruct K; [discriminate | exact Hhead]).
  change (String "=" rhs) with (String.append "=" rhs).
  rewrite <- append_assoc, rstrip_by_app_keep.
  - rewrite append_assoc. reflexivity.
  - destruct K; discriminate.
  - apply last_free_snoc.
Qed.

Lemma plain_key_inv (k : string) :
  plain_key k = true ->
  nonempty k = true /\ head_free isspace k = true /\ last_free isspace k = true /\
  contains "=" k = false /\ startswith_char "#" k = false /\
  String.prefix "export " k = false.
Proof.
  unfold plain_key, kept_key.
  rewrite !andb_true_iff, !negb_true_iff. tauto.
Qed.

(** The part of the loop body after the [export] step, on a line that is a
    plain key, [=] and anything. *)
Lemma assignment_tail (k r : string) :
  plain_key k = true ->
  match partition "=" (String.append k (String "=" r)) with
  | Some (key, value) =>
      if nonempty (strip key)
      then Some (strip key, strip_chars is_dquote (strip_chars is_squote (strip value)))
      else None
  | None => None
  end = Some (k, unquote (strip r)).
Proof.
  intros (Hne & Hh & Hl & Heq & _ & _)%plain_key_inv.
  rewrite partition_app by exact Heq.
  change (strip k) with (strip_chars isspace k).
  rewrite strip_chars_fix by assumption. rewrite Hne. reflexivity.
Qed.

(** X14. A line made of blanks, a plain key, [=] and any text assigns to
    that key the text after the [=], trimmed and unquoted; so does the same
    line behind the word [export] and blanks. *)
Theorem env_line_assignment (w w' k rhs : string) :
  forall_chars isspace w = true ->
  forall_chars isspace w' = true ->
  plain_key k = true ->
  env_line (String.append w (String.append k (String "=" rhs)))
    = Some (k, unquote (strip rhs)) /\
  env_line (String.append w (String.append "export "
             (String.append w' (String.append k (String "=" rhs)))))
    = Some (k, unquote (strip rhs)).
Proof.
  intros Hw Hw' Hk. pose proof (plain_key_inv k Hk) as (Hne & Hh & _ & _ & Hcomment & Hexport).
  assert (Hvalue : strip (rstrip_by isspace rhs) = strip rhs)
    by exact (strip_chars_rstrip isspace rhs).
  split.
  - unfold env_line. rewrite strip_assignment_line by assumption.
    assert (Hline : negb (nonempty (String.append k (String "=" (rstrip_by isspace rhs))))
                    || startswith_char "#" (String.append k (String "=" (rstrip_by isspace rhs)))
                    = false).
    { destruct k; [discriminate |]. simpl in *. exact Hcomment. }
    rewrite Hline, prefix_before_equals by (reflexivity || exact Hexport).
    rewrite assignment_tail, Hvalue by exact Hk. reflexivity.
  - unfold env_line.
    rewrite <- (append_assoc "export " w').
    rewrite <- (append_assoc (String.append "export " w') k).
    rewrite strip_assignment_line by (reflexivity || assumption).
    rewrite !append_assoc.
    change (negb (nonempty (String.append "export " ?x))) with false.
    cbn [orb startswith_char String.append Ascii.eqb Bool.eqb].
    rewrite prefix_app_self.
    change (String "e" (String "x" (String "p" (String "o" (String "r" (String "t"
              (String " " ?x))))))) with (String.append "export " x).
    rewrite drop_chars_app, strip_assignment_line by assumption.
    rewrite (rstrip_by_fix isspace (rstrip_by isspace rhs)) by apply rstrip_by_last_free.
    rewrite assignment_tail, Hvalue by exact Hk. reflexivity.
Qed.

(** X15. What unquoting keeps: a value without quotes at its ends is left
    alone; a value inside double quotes comes out whole, its blanks and
    single quotes included; a value inside single quotes comes out whole
    when it has no quote of either kind at its ends. *)
Theorem unquote_layers (v : string) :
  (head_free is_squote v = true -> last_free is_squote v = true ->
   head_free is_dquote v = true -> last_free is_dquote v = true ->
   unquote v = v) /\
  (head_free is_dquote v = true -> last_free is_dquote v = true ->
   unquote (wrap DQUOTE v) = v) /\
  (head_free is_squote v = true -> last_free is_squote v = true ->
   head_free is_dquote v = true -> last_free is_dquote v = true ->
   unquote (wrap SQUOTE v) = v).
Proof.
  assert (Hwrap : forall (p : ascii -> bool) (c : ascii) (x : string),
             p c = true -> head_free p x = true -> last_free p x = true ->
             strip_chars p (wrap c x) = x).
  { intros p c x Hc Hh Hl. unfold strip_chars, wrap. simpl lstrip_by. rewrite Hc.
    destruct x as [| d x].
    - simpl. rewrite Hc. reflexivity.
    - rewrite lstrip_by_fix by exact Hh.
      rewrite rstrip_by_snoc by exact Hc. apply rstrip_by_fix, Hl. }
  split; [| split].
  - intros Hsh Hsl Hdh Hdl. unfold unquote.
    rewrite (strip_chars_fix is_squote v), (strip_chars_fix is_dquote v) by assumption.
    reflexivity.
  - intros Hdh Hdl. unfold unquote.
    rewrite (strip_chars_fix is_squote (wrap DQUOTE v)).
    + apply Hwrap; [reflexivity | assumption | assumption].
    + reflexivity.
    + unfold wrap. change (String DQUOTE (String.append v (String DQUOTE "")))
        with (String.append (String DQUOTE v) (String DQUOTE "")).
      rewrite last_free_snoc. reflexivity.
  - intros Hsh Hsl Hdh Hdl. unfold unquote.
    rewrite (Hwrap is_squote SQUOTE v) by (reflexivity || assumption).
    apply strip_chars_fix; assumption.
Qed.

(** ** [main] *)

Section MoreMain.

Variable h : Interpreter.

Lemma errors_nil_all_ok (env : gmap string string) rs es :
  run_checks h env = inr (rs, es) ->
  (es = [] <-> Forall (fun r => ok r = true) rs).
Proof.
  intros (ok3 & ok4 & _ & _ & -> & ->)%run_checks_returns.
  rewrite report_errors_of_results.
  generalize (report_results env ok3 ok4) as l.
  induction l as [| r l IH]; simpl.
  - split; [constructor | reflexivity].
  - unfold failing at 1. destruct (ok r) eqn:Hr; simpl.
    + rewrite IH. split; [by constructor | by inversion 1].
    + split; [discriminate | inversion 1; congruence].
Qed.

Lemma main_checked (env_file : string) (strict_file : bool) (file : option string)
    (environ : gmap string string) :
  strict_file && negb (found file) = false ->
  main h env_file strict_file file environ =
    res_bind (run_checks h (environ ∪ parse_env_file file)) (fun '(results, errors) =>
    let printed :=
      ["Finance env validation (uv):"; env_file_line env_file (found file)]
      ++ map status_line results in
    match errors with
    | _ :: _ =>
        ok_res (1%Z, printed ++ [String.append NEWLINE "Errors:"]
                     ++ map (String.append "- ") errors)
    | [] =>
        ok_res (0%Z, printed ++ [String.append NEWLINE "All finance environment checks passed."])
    end).
Proof. intros Hgate. unfold main. rewrite Hgate. reflexivity. Qed.

(** X16. The exit code of [main] is 0 or 1, and it is 0 exactly when the
    run was not stopped by the strict flag and [run_checks] returned no
    error on the merged map, that is when every result is ok. *)
Theorem main_exit_code (env_file : string) (strict_file : bool) (file : option string)
    (environ : gmap string string) (code : Z) (out : list string) :
  main h env_file strict_file file environ = inr (code, out) ->
  (code = 0%Z \/ code = 1%Z) /\
  (code = 0%Z <->
   strict_file && negb (found file) = false /\
   exists rs, run_checks h (environ ∪ parse_env_file file) = inr (rs, []) /\
              Forall (fun r => ok r = true) rs).
Proof.
  destruct (strict_file && negb (found file)) eqn:Hgate.
  - unfold main. rewrite Hgate. intros [= <- <-].
    split; [right; reflexivity |]. split; [discriminate | intros [? _]; discriminate].
  - rewrite main_checked by exact Hgate. unfold res_bind, ok_res.
    destruct (run_checks h (environ ∪ parse_env_file file)) as [e | [rs es]] eqn:Hrun;
      [discriminate |].
    pose proof (errors_nil_all_ok _ rs es Hrun) as Hok.
    destruct es as [| e es]; intros [= <- <-].
    + split; [left; reflexivity |]. split; [| reflexivity].
      intros _. split; [reflexivity |]. exists rs. split; [reflexivity | apply Hok; reflexivity].
    + split; [right; reflexivity |]. split; [discriminate |].
      intros (_ & rs' & Heq & _). congruence.
Qed.

Lemma lookup_map_Some {A B : Type} (f : A -> B) (l : list A) (i : nat) (x : A) :
  l !! i = Some x -> map f l !! i = Some (f x).
Proof.
  revert i. induction l as [| a l IH]; intros [| i]; simpl; try discriminate.
  - intros [= ->]. reflexivity.
  - apply IH.
Qed.

(** X18. What [main] prints.  Stopped by the strict flag it prints the one
    failure line and exits with 1.  Otherwise it prints eight lines and one
    more for every error: after the two heading lines, the line of each
    result at the place of the result, then a closing line, then every
    error in its order behind a dash. *)
Theorem main_output (env_file : string) (strict_file : bool) (file : option string)
    (environ : gmap string string) (code : Z) (out : list string) :
  main h env_file strict_file file environ = inr (code, out) ->
  (strict_file && negb (found file) = true ->
     code = 1%Z /\ out = [String.append "[FAIL] env file not found: " env_file]) /\
  (strict_file && negb (found file) = false ->
     exists rs es,
       run_checks h (environ ∪ parse_env_file file) = inr (rs, es) /\
       length out = (8 + length es)%nat /\
       out !! 0%nat = Some "Finance env validation (uv):" /\
       out !! 1%nat = Some (env_file_line env_file (found file)) /\
       (forall i r, rs !! i = Some r -> out !! (2 + i)%nat = Some (status_line r)) /\
       (forall i err, es !! i = Some err ->
                      out !! (8 + i)%nat = Some (String.append "- " err))).
Proof.
  destruct (strict_file && negb (found file)) eqn:Hgate.
  - unfold main. rewrite Hgate. intros [= <- <-].
    split; [intros _; split; reflexivity | discriminate].
  - rewrite main_checked by exact Hgate. unfold res_bind, ok_res.
    destruct (run_checks h (environ ∪ parse_env_file file)) as [e | [rs es]] eqn:Hrun;
      [discriminate |].
    intros Hmain. split; [discriminate |]. intros _. exists rs, es.
    split; [reflexivity |].
    apply run_checks_returns in Hrun. destruct Hrun as (ok3 & ok4 & _ & _ & Hrs & Hes).
    assert (Hout : exists closing,
               out = ["Finance env validation (uv):"; env_file_line env_file (found file)]
                     ++ map status_line rs ++ [closing] ++ map (String.append "- ") es).
    { destruct es as [| err es]; injection Hmain as _ <-.
      - eexists. simpl. rewrite <- ?app_assoc. reflexivity.
      - eexists. simpl. rewrite <- ?app_assoc. reflexivity. }
    destruct Hout as (closing & ->). rewrite Hrs. unfold report_results.
    split; [simpl; rewrite length_map; reflexivity |].
    split; [reflexivity |]. split; [reflexivity |]. split.
    + intros i r Hr.
      do 5 (destruct i as [| i]; [injection Hr as <-; reflexivity |]).
      discriminate.
    + intros i err Herr. simpl. apply lookup_map_Some, Herr.
Qed.

(** X19. The process environment wins: what the env file says about a key
    that the environment sets, even to an empty value, or about a key that
    [run_checks] does not read, changes nothing in what [main] does. *)
Theorem process_environment_wins (env_file : string) (strict_file : bool)
    (file file' : option string) (environ : gmap string string) :
  found file = found file' ->
  (forall k, In k ALL_KEYS -> environ !! k = None ->
             parse_env_file file !! k = parse_env_file file' !! k) ->
  main h env_file strict_file file environ = main h env_file strict_file file' environ.
Proof.
  intros Hfound Hagree. unfold main. rewrite <- Hfound.
  destruct (strict_file && negb (found file)); [reflexivity |].
  rewrite (run_checks_ext h (environ ∪ parse_env_file file) (environ ∪ parse_env_file file'));
    [reflexivity |].
  intros k Hk. rewrite !lookup_union.
  destruct (environ !! k) as [v |] eqn:Henv.
  - rewrite !(left_id_L None _) || idtac.
    destruct (parse_env_file file !! k), (parse_env_file file' !! k); reflexivity.
  - rewrite (Hagree k Hk Henv). reflexivity.
Qed.

End MoreMain.

(** ** The further properties at concrete inputs *)

Lemma pick_result_witness :
  pick (env_expert_mode " live ") EXPERT_MODE_KEYS (Some "stub") = Some "live" /\
  (Some "stub" = Some "live" \/
   exists k raw, In k EXPERT_MODE_KEYS /\ env_expert_mode " live " !! k = Some raw /\
                 "live" = strip raw /\ "live" <> "" /\ strip "live" = "live").
Proof.
  split; [vm_compute; reflexivity |].
  apply (pick_result (env_expert_mode " live ") EXPERT_MODE_KEYS (Some "stub") "live").
  vm_compute. reflexivity.
Defined.

Lemma pick_blank_is_unset_witness :
  strip "  " = "" /\
  pick (<["FIN_EXPERT_SDK_MODE" := "  "]> (env_poll "9999")) EXPERT_MODE_KEYS (Some "stub")
  = pick (delete "FIN_EXPERT_SDK_MODE" (env_poll "9999")) EXPERT_MODE_KEYS (Some "stub").
Proof.
  split; [reflexivity |].
  apply (pick_blank_is_unset (env_poll "9999") "FIN_EXPERT_SDK_MODE" "  ").
  reflexivity.
Defined.

Lemma valid_url_answers_on_ascii_without_brackets_witness :
  isascii "https://api.example.com/v1" = true /\
  contains "[" "https://api.example.com/v1" = false /\
  contains "]" "https://api.example.com/v1" = false /\
  exists b, valid_url no_host_check "https://api.example.com/v1" = inr b.
Proof.
  split; [reflexivity | split; [reflexivity | split; [reflexivity |]]].
  apply (valid_url_answers_on_ascii_without_brackets no_host_check
           "https://api.example.com/v1");
    reflexivity.
Defined.

Lemma run_checks_reads_only_its_keys_witness :
  run_checks no_host_check (<["PATH" := "/usr/bin"]> (env_poll "9999"))
  = run_checks no_host_check (env_poll "9999").
Proof.
  apply (run_checks_reads_only_its_keys no_host_check).
  intros k Hk. apply lookup_insert_ne. intros <-.
  cbv in Hk. repeat (destruct Hk as [Hk | Hk]; [discriminate Hk |]). exact Hk.
Defined.

Lemma auto_evaluate_decides_nothing_witness :
  exists rs es rs',
    run_checks no_host_check (env_poll "9999") = inr (rs, es) /\
    run_checks no_host_check (<["FIN_MONITORING_AUTO_EVALUATE" := "false"]> (env_poll "9999"))
      = inr (rs', es) /\
    map name rs' = map name rs /\ map ok rs' = map ok rs /\
    firstn 4 rs' = firstn 4 rs.
Proof.
  destruct (run_checks no_host_check (env_poll "9999")) as [e | [rs es]] eqn:Hrun;
    [vm_compute in Hrun; discriminate Hrun |].
  assert (Hagree : forall k, ~ In k AUTO_EVALUATE_KEYS ->
            env_poll "9999" !! k
            = <["FIN_MONITORING_AUTO_EVALUATE" := "false"]> (env_poll "9999") !! k).
  { intros k Hk. symmetry. apply lookup_insert_ne. intros <-. apply Hk.
    right. left. reflexivity. }
  destruct (auto_evaluate_decides_nothing no_host_check (env_poll "9999")
              (<["FIN_MONITORING_AUTO_EVALUATE" := "false"]> (env_poll "9999")) rs es
              Hagree Hrun)
    as (rs' & Hrun' & Hrest).
  exists rs, es, rs'. split; [reflexivity | split; [exact Hrun' | exact Hrest]].
Defined.

Lemma live_credentials_on_return_witness :
  exists rs es r,
    run_checks no_host_check (env_live "k" "https://api.example.com") = inr (rs, es) /\
    rs !! 2%nat = Some r /\ name r = "expert.live_credentials" /\
    (In EXPERT_CREDENTIALS_ERROR es <-> ok r = false).
Proof.
  destruct (run_checks no_host_check (env_live "k" "https://api.example.com"))
    as [e | [rs es]] eqn:Hrun; [vm_compute in Hrun; discriminate Hrun |].
  destruct (live_credentials_on_return no_host_check _ rs es Hrun)
    as [(r & Hr & Hname & Herr & _) _].
  exists rs, es, r. split; [reflexivity | split; [exact Hr | split; [exact Hname | exact Herr]]].
Defined.

Lemma run_checks_returns_on_ascii_without_brackets_witness :
  exists rs es, run_checks no_host_check (env_live "k" "not-a-url") = inr (rs, es).
Proof.
  apply (run_checks_returns_on_ascii_without_brackets no_host_check
           (env_live "k" "not-a-url")).
  intros k v Hk Hv. cbv in Hk.
  repeat (destruct Hk as [<- | Hk];
          [vm_compute in Hv;
           first [discriminate Hv
                 | injection Hv as <-; split; [reflexivity | split; reflexivity]] |]).
  destruct Hk.
Defined.

Lemma loaded_keys_and_values_witness :
  parse_env_file (Some " export FIN_KEY = v ") !! "FIN_KEY" = Some "v" /\
  kept_key "FIN_KEY" = true /\ head_free is_dquote "v" = true /\ last_free is_dquote "v" = true.
Proof.
  split; [vm_compute; reflexivity |].
  apply (loaded_keys_and_values (Some " export FIN_KEY = v ") "FIN_KEY" "v").
  vm_compute. reflexivity.
Defined.

Lemma later_lines_override_witness :
  parse_env_text (String.append "A=1" (String.append NEWLINE "A=2")) !! "A" = Some "2".
Proof.
  apply (proj2 (later_lines_override (String.append "A=1" (String.append NEWLINE "A=2")) "A" "2")).
  exists ["A=1"], "A=2", [].
  split; [vm_compute; reflexivity |].
  split; [vm_compute; reflexivity |].
  intros l' v' [].
Defined.

Lemma text_without_equals_loads_nothing_witness :
  contains "=" "# no assignment here" = false /\
  parse_env_text "# no assignment here" = ∅.
Proof.
  split; [reflexivity |].
  apply (text_without_equals_loads_nothing "# no assignment here"). reflexivity.
Defined.

Lemma env_line_assignment_witness :
  plain_key "FIN_KEY" = true /\
  env_line "  FIN_KEY= v " = Some ("FIN_KEY", "v") /\
  env_line "  export  FIN_KEY= v " = Some ("FIN_KEY", "v").
Proof.
  split; [reflexivity |].
  exact (env_line_assignment "  " " " "FIN_KEY" " v " eq_refl eq_refl eq_refl).
Defined.

Lemma unquote_layers_witness :
  unquote "a b" = "a b" /\
  unquote (wrap DQUOTE "a b") = "a b" /\
  unquote (wrap SQUOTE "a b") = "a b".
Proof.
  destruct (unquote_layers "a b") as (Hplain & Hdouble & Hsingle).
  split; [apply Hplain; reflexivity |].
  split; [apply Hdouble; reflexivity | apply Hsingle; reflexivity].
Defined.

Lemma main_exit_code_witness :
  exists code out,
    main no_host_check ".env" false (Some "FIN_EXPERT_SDK_MODE=production") ∅
      = inr (code, out) /\
    (code = 0%Z \/ code = 1%Z).
Proof.
  destruct (main no_host_check ".env" false (Some "FIN_EXPERT_SDK_MODE=production") ∅)
    as [e | [code out]] eqn:Hmain; [vm_compute in Hmain; discriminate Hmain |].
  exists code, out. split; [reflexivity |].
  exact (proj1 (main_exit_code no_host_check _ _ _ _ code out Hmain)).
Defined.

Lemma main_output_witness :
  exists code out rs es,
    main no_host_check ".env" false (Some "FIN_EXPERT_SDK_MODE=production") ∅
      = inr (code, out) /\
    run_checks no_host_check (∅ ∪ parse_env_file (Some "FIN_EXPERT_SDK_MODE=production"))
      = inr (rs, es) /\
    length out = (8 + length es)%nat.
Proof.
  destruct (main no_host_check ".env" false (Some "FIN_EXPERT_SDK_MODE=production") ∅)
    as [e | [code out]] eqn:Hmain; [vm_compute in Hmain; discriminate Hmain |].
  destruct (proj2 (main_output no_host_check _ _ _ _ code out Hmain) eq_refl)
    as (rs & es & Hrun & Hlen & _).
  exists code, out, rs, es. split; [reflexivity | split; [exact Hrun | exact Hlen]].
Defined.

Lemma process_environment_wins_witness :
  main no_host_check ".env" false (Some "FIN_EXPERT_SDK_MODE=production")
    (env_expert_mode "")
  = main no_host_check ".env" false (Some "FIN_EXPERT_SDK_MODE=stub")
      (env_expert_mode "").
Proof.
  apply (process_environment_wins no_host_check); [reflexivity |].
  intros k Hk Hunset. cbv in Hk.
  repeat (destruct Hk as [<- | Hk];
          [vm_compute in Hunset; first [discriminate Hunset | vm_compute; reflexivity] |]).
  destruct Hk.
Defined.
